(** * DataTable: the column/cell resolver and the table renderer

    A shallow embedding of [components/organisms/DataTable] (a React function
    component written in TypeScript) and the properties of its cell
    resolution and of its three display states.

    Modelling conventions.
    - A JavaScript value that can reach the table (a field of a row, the
      result of an accessor or of a cell renderer, a header, the empty-state
      content) is a [jsval]: the primitives, React elements and functions
      (denoted by their source text).  Numbers are integers plus [VNaN];
      other objects are not modelled.
    - A row ([T extends Record<string, unknown>]) is a finite map from
      property names to values; reading a property the row does not own
      gives [undefined].  Properties inherited from [Object.prototype] are
      outside the model.  A key of a row ([keyof T]) is a property name or
      a numeric index; symbols are not modelled.
    - Caller-supplied functions ([accessor], [cell], [getRowKey],
      [onRowClick]) are total functions of their arguments.
    - [getCellValue] and [renderCell] are closures of [DataTable] that capture
      none of its props; they are stated at top level.
    - [clsx] and [twMerge] belong to external packages: they are parameters
      of the development.

    Where the row's prototype chain or a callback that throws matters, the
    resolver is taken up a second time, in the module [Dynamic], over rows
    with inherited properties and callbacks that may throw.

    The file also covers two helpers of [lib/utils], the module [cn] comes
    from: [truncate], over strings as lists of code units, and [debounce],
    as a step relation over the timers of the host. *)

From stdpp Require Import base option list strings gmap pretty.

Local Open Scope string_scope.

(** ** JavaScript values *)

#[warnings="-register-all"]
Inductive jsval : Type :=
| VUndefined
| VNull
| VBool (b : bool)
| VNum (n : Z)
| VNaN
| VStr (s : string)
| VElem (tag : string) (className : string) (children : list jsval)
| VFunction (source : string).

(** A row of data: own properties only. *)
Abbreviation Row := (gmap string jsval).

(** ToBoolean: [false], [0], [NaN], the empty string, [null] and
    [undefined] are falsy, everything else is truthy. *)
Definition truthy (v : jsval) : bool :=
  match v with
  | VUndefined | VNull | VNaN => false
  | VBool b => b
  | VNum n => negb (n =? 0)%Z
  | VStr s => negb (String.eqb s "")
  | VElem _ _ _ => true
  | VFunction _ => true
  end.

(** [a || b] on values. *)
Definition js_or (a b : jsval) : jsval := if truthy a then a else b.

(** String(v), as a template literal applies it. *)
Definition js_String (v : jsval) : string :=
  match v with
  | VUndefined => "undefined"
  | VNull => "null"
  | VBool true => "true"
  | VBool false => "false"
  | VNum n => pretty n
  | VNaN => "NaN"
  | VStr s => s
  | VElem _ _ _ => "[object Object]"
  | VFunction source => source
  end.

(** ** Property keys

    [keyof T] for a record type: a property name or a numeric index. *)
Inductive PropertyKey : Type :=
| PropStr (s : string)
| PropNum (n : Z).

Definition key_truthy (k : PropertyKey) : bool :=
  match k with
  | PropStr s => negb (String.eqb s "")
  | PropNum n => negb (n =? 0)%Z
  end.

(** ToPropertyKey: a numeric key names the property spelled by its digits. *)
Definition key_name (k : PropertyKey) : string :=
  match k with
  | PropStr s => s
  | PropNum n => pretty n
  end.

(** [row[key]]: the own property, or [undefined] when the row has none. *)
Definition row_get (row : Row) (k : PropertyKey) : jsval :=
  default VUndefined (row !! key_name k).

(** ** Columns *)

Inductive Width : Type :=
| WidthStr (s : string)
| WidthNum (n : Z).

Inductive Align : Type := left | center | right.

(** [keyof T | ((row: T) => unknown)] *)
Inductive Accessor : Type :=
| AccKey (k : PropertyKey)
| AccFn (f : Row → jsval).

(** The argument object of a cell renderer, [{ value, row, index }]. *)
Record CellProps : Type := mkCellProps {
  value : jsval;
  row : Row;
  index : nat
}.

Record Column : Type := mkColumn {
  id : string;
  header : jsval;
  accessor : option Accessor;
  cell : option (CellProps → jsval);
  width : option Width;
  align : option Align;
  sortable : option bool
}.

(** ToBoolean of the [accessor] field once it is known to be present: a
    function is an object, hence truthy; a key is truthy as a primitive. *)
Definition accessor_truthy (a : Accessor) : bool :=
  match a with
  | AccKey k => key_truthy k
  | AccFn _ => true
  end.

(** ** The cell resolver *)

Definition getCellValue (row : Row) (column : Column) : jsval :=
  match accessor column with
  | Some a =>
      if accessor_truthy a then
        match a with
        | AccFn f => f row
        | AccKey k => row_get row k
        end
      else VNull
  | None => VNull
  end.

Definition renderCell (row : Row) (column : Column) (index : nat) : jsval :=
  let value := getCellValue row column in
  match cell column with
  | Some render => render {| value := value; row := row; index := index |}
  | None => value
  end.

(** ** Class names

    A [ClassValue] as the table passes it to [cn]: a class string, or the
    [false] / [undefined] left by a failed [cond && 'classes']. *)
Inductive ClassValue : Type :=
| ClassFalse
| ClassUndefined
| ClassStr (s : string).

(** [b && 'classes'] *)
Definition class_and (b : bool) (c : ClassValue) : ClassValue :=
  if b then c else ClassFalse.

(** An optional string prop used as a class value. *)
Definition class_opt (c : option string) : ClassValue :=
  from_option ClassStr ClassUndefined c.

(** [column.align === a] *)
Definition align_is (a : Align) (column : Column) : bool :=
  match align column, a with
  | Some left, left | Some center, center | Some right, right => true
  | _, _ => false
  end.

(** ** The rendered tree *)

(** A React key: [string | number]. *)
Inductive Key : Type :=
| KeyStr (s : string)
| KeyNum (n : Z).

Section Table.

(** What the caller's [onRowClick] does when it is called. *)
Variable effect : Type.

(** The external class-name helpers. *)
Variable clsx : list ClassValue → string.
Variable twMerge : string → string.

Definition cn (inputs : list ClassValue) : string := twMerge (clsx inputs).

(** An attribute of an element.  An event handler is denoted by what
    calling it does: [None] when it does nothing. *)
Inductive AttrValue : Type :=
| AttrStr (s : string)
| AttrNum (n : nat)
| AttrStyleWidth (w : option Width)
| AttrHandler (fired : option effect).

(** [Child v] is an expression child [{v}]; [Elem] a host element with its
    key, attributes and children (a child array is spliced in place);
    [Comp] a component element together with what the component renders. *)
#[warnings="-register-all"]
Inductive node : Type :=
| Child (v : jsval)
| Elem (tag : string) (key : option Key)
       (attrs : list (string * AttrValue)) (children : list node)
| Comp (name : string) (key : option Key) (rendered : node).

Record DataTableProps : Type := mkProps {
  className : option string;
  columns : list Column;
  data : list Row;
  loading : option bool;
  emptyState : option jsval;
  bordered : option bool;
  striped : option bool;
  hoverable : option bool;
  getRowKey : option (Row → nat → Key);
  onRowClick : option (Row → nat → effect);
  props : list (string * AttrValue)
}.

(** Skeleton row for loading state *)
Definition SkeletonRow (columns : nat) : node :=
  Elem "tr" None []
    ((λ i : nat,
        Elem "td" (Some (KeyNum (Z.of_nat i))) [("className", AttrStr "p-4")]
          [Elem "div" None
             [("className", AttrStr "h-4 bg-neutral-200 rounded animate-pulse")]
             []])
       <$> seq 0 columns).

(** The default content of the empty state. *)
Definition noData : jsval :=
  VElem "div" "py-12 text-neutral-500" [VStr "No data available"].

Definition DataTable (p : DataTableProps) : node :=
  let className := className p in
  let columns := columns p in
  let data := data p in
  let loading := default false (loading p) in
  let emptyState := default VUndefined (emptyState p) in
  let bordered := default false (bordered p) in
  let striped := default false (striped p) in
  let hoverable := default true (hoverable p) in
  let getRowKey := getRowKey p in
  let onRowClick := onRowClick p in
  let props := props p in
  let isEmpty := negb loading && (length data =? 0)%nat in
  Elem "div" None
    (("className",
      AttrStr (cn [ClassStr "relative w-full overflow-auto"; class_opt className]))
       :: props)
    [Elem "table" None [("className", AttrStr "w-full caption-bottom text-sm")]
       [Elem "thead" None [("className", AttrStr "bg-neutral-50 [&_tr]:border-b")]
          [Elem "tr" None []
             ((λ column,
                 Elem "th" (Some (KeyStr (id column)))
                   [("className",
                     AttrStr (cn [
                       ClassStr "h-12 px-4 text-left align-middle font-medium text-neutral-500";
                       class_and (align_is center column) (ClassStr "text-center");
                       class_and (align_is right column) (ClassStr "text-right");
                       class_and bordered (ClassStr "border-r last:border-r-0")]));
                    ("style", AttrStyleWidth (width column))]
                   [Child (header column)])
                <$> columns)];
        Elem "tbody" None [("className", AttrStr "[&_tr:last-child]:border-0")]
          (if loading then
             (* Loading skeleton *)
             (λ i : nat,
                Comp "SkeletonRow" (Some (KeyNum (Z.of_nat i)))
                  (SkeletonRow (length columns)))
               <$> seq 0 5
           else if isEmpty then
             (* Empty state *)
             [Elem "tr" None []
                [Elem "td" None
                   [("colSpan", AttrNum (length columns));
                    ("className", AttrStr "h-24 text-center")]
                   [Child (js_or emptyState noData)]]]
           else
             (* Data rows *)
             imap (λ index row,
                let key :=
                  match getRowKey with
                  | Some f => f row index
                  | None => KeyNum (Z.of_nat index)
                  end in
                Elem "tr" (Some key)
                  [("className",
                    AttrStr (cn [
                      ClassStr "border-b transition-colors";
                      class_and striped
                        (class_and (index mod 2 =? 1)%nat (ClassStr "bg-neutral-50"));
                      class_and hoverable (ClassStr "hover:bg-neutral-50");
                      match onRowClick with
                      | Some _ => ClassStr "cursor-pointer"
                      | None => ClassUndefined
                      end]));
                   ("onClick", AttrHandler ((λ f, f row index) <$> onRowClick))]
                  ((λ column,
                      Elem "td" (Some (KeyStr (id column)))
                        [("className",
                          AttrStr (cn [
                            ClassStr "p-4 align-middle";
                            class_and (align_is center column) (ClassStr "text-center");
                            class_and (align_is right column) (ClassStr "text-right");
                            class_and bordered (ClassStr "border-r last:border-r-0")]))]
                        [Child (renderCell row column index)])
                     <$> columns))
               data)]].

(** ** Reading the rendered tree *)

Definition children_of (n : node) : list node :=
  match n with
  | Elem _ _ _ c => c
  | _ => []
  end.

Definition tag_is (t : string) (n : node) : bool :=
  match n with
  | Elem t' _ _ _ => String.eqb t t'
  | _ => false
  end.

Definition child_with_tag (t : string) (n : node) : option node :=
  List.find (tag_is t) (children_of n).

(** The children of the [<tbody>] of a rendered table. *)
Definition tbody_rows (n : node) : option (list node) :=
  table ← child_with_tag "table" n;
  tbody ← child_with_tag "tbody" table;
  Some (children_of tbody).

Definition node_key (n : node) : option Key :=
  match n with
  | Elem _ k _ _ | Comp _ k _ => k
  | Child _ => None
  end.

Definition attr (name : string) (n : node) : option AttrValue :=
  match n with
  | Elem _ _ attrs _ =>
      snd <$> List.find (λ a, String.eqb name (fst a)) attrs
  | _ => None
  end.

(** What a component element expands to; a host element is itself. *)
Definition rendered_of (n : node) : node :=
  match n with
  | Comp _ _ r => r
  | _ => n
  end.

(** The value shown by a cell: its only child, an expression. *)
Definition content_of (td : node) : option jsval :=
  match children_of td with
  | [Child v] => Some v
  | _ => None
  end.

(** The values shown by the cells of a row, cell by cell. *)
Definition cell_contents (tr : node) : list (option jsval) :=
  content_of <$> children_of tr.

(** A placeholder cell of the loading skeleton: a [<td>] around one
    pulsing bar. *)
Definition is_placeholder (n : node) : bool :=
  match n with
  | Elem t _ [(a, AttrStr c)] [Elem t' None [(a', AttrStr c')] []] =>
      String.eqb t "td" && String.eqb a "className" && String.eqb c "p-4"
      && String.eqb t' "div" && String.eqb a' "className"
      && String.eqb c' "h-4 bg-neutral-200 rounded animate-pulse"
  | _ => false
  end.

(** The props with another [data] array. *)
Definition with_data (p : DataTableProps) (d : list Row) : DataTableProps :=
  {| className := className p; columns := columns p; data := d;
     loading := loading p; emptyState := emptyState p;
     bordered := bordered p; striped := striped p;
     hoverable := hoverable p; getRowKey := getRowKey p;
     onRowClick := onRowClick p; props := props p |}.

(** ** Props that cannot be told apart

    Two values of a function-typed prop are the same for the table when
    they agree on every argument. *)

Definition accessor_equiv (a b : option Accessor) : Prop :=
  match a, b with
  | None, None => True
  | Some (AccKey k), Some (AccKey k') => k = k'
  | Some (AccFn f), Some (AccFn g) => ∀ row, f row = g row
  | _, _ => False
  end.

Definition fun_equiv {A B} (f g : option (A → B)) : Prop :=
  match f, g with
  | None, None => True
  | Some f, Some g => ∀ x, f x = g x
  | _, _ => False
  end.

Definition fun2_equiv {A B C} (f g : option (A → B → C)) : Prop :=
  match f, g with
  | None, None => True
  | Some f, Some g => ∀ x y, f x y = g x y
  | _, _ => False
  end.

Record column_equiv (c1 c2 : Column) : Prop := {
  equiv_id : id c1 = id c2;
  equiv_header : header c1 = header c2;
  equiv_accessor : accessor_equiv (accessor c1) (accessor c2);
  equiv_cell : fun_equiv (cell c1) (cell c2);
  equiv_width : width c1 = width c2;
  equiv_align : align c1 = align c2;
  equiv_sortable : sortable c1 = sortable c2
}.

Record props_equiv (p1 p2 : DataTableProps) : Prop := {
  equiv_className : className p1 = className p2;
  equiv_columns : Forall2 column_equiv (columns p1) (columns p2);
  equiv_data : data p1 = data p2;
  equiv_loading : loading p1 = loading p2;
  equiv_emptyState : emptyState p1 = emptyState p2;
  equiv_bordered : bordered p1 = bordered p2;
  equiv_striped : striped p1 = striped p2;
  equiv_hoverable : hoverable p1 = hoverable p2;
  equiv_getRowKey : fun2_equiv (getRowKey p1) (getRowKey p2);
  equiv_onRowClick : fun2_equiv (onRowClick p1) (onRowClick p2);
  equiv_props : props p1 = props p2
}.

End Table.

Arguments Child {effect} v.
Arguments Elem {effect} tag key attrs children.
Arguments Comp {effect} name key rendered.
Arguments AttrStr {effect} s.
Arguments AttrNum {effect} n.
Arguments AttrStyleWidth {effect} w.
Arguments AttrHandler {effect} fired.
Arguments SkeletonRow {effect} columns.
Arguments DataTable {effect} clsx twMerge p.
Arguments children_of {effect} n.
Arguments tbody_rows {effect} n.
Arguments node_key {effect} n.
Arguments attr {effect} name n.
Arguments rendered_of {effect} n.
Arguments content_of {effect} td.
Arguments cell_contents {effect} tr.
Arguments is_placeholder {effect} n.
Arguments with_data {effect} p d.
Arguments props_equiv {effect} p1 p2.
Arguments className {effect} d.
Arguments columns {effect} d.
Arguments data {effect} d.
Arguments loading {effect} d.
Arguments emptyState {effect} d.
Arguments bordered {effect} d.
Arguments striped {effect} d.
Arguments hoverable {effect} d.
Arguments getRowKey {effect} d.
Arguments onRowClick {effect} d.
Arguments props {effect} d.

(** ** The resolution steps as the specification words them *)

(** The value of the accessor step: the accessor function applied to the
    row, or the field-key lookup on the row, or [null] when the column has
    no accessor. *)
Definition spec_value (row : Row) (column : Column) : jsval :=
  match accessor column with
  | Some (AccFn f) => f row
  | Some (AccKey k) => row_get row k
  | None => VNull
  end.

(** The content of the empty state: the caller-supplied [emptyState], or the
    default message when none is supplied. *)
Definition spec_emptyContent (emptyState : option jsval) : jsval :=
  match emptyState with
  | Some e => e
  | None => noData
  end.

(** The single row of the empty state around a given content. *)
Definition emptyRow {effect} (ncols : nat) (content : jsval) : node effect :=
  Elem "tr" None []
    [Elem "td" None
       [("colSpan", AttrNum ncols); ("className", AttrStr "h-24 text-center")]
       [Child content]].

(** The column without its accessor. *)
Definition without_accessor (column : Column) : Column :=
  {| id := id column; header := header column; accessor := None;
     cell := cell column; width := width column; align := align column;
     sortable := sortable column |}.

(** ** Sample inputs *)

(** A plain rendering of [clsx] on the class values the table builds:
    the non-empty strings, separated by spaces. *)
Definition clsx_join (inputs : list ClassValue) : string :=
  String.concat " "
    (omap (λ c, match c with
                | ClassStr s => if String.eqb s "" then None else Some s
                | _ => None
                end) inputs).

Definition tw_id (s : string) : string := s.

Definition column_name : Column :=
  {| id := "name"; header := VStr "Name";
     accessor := Some (AccKey (PropStr "name")); cell := None;
     width := None; align := None; sortable := None |}.

(** [cell: ({ value }) => `[${value}]`] *)
Definition column_status : Column :=
  {| id := "status"; header := VStr "Status";
     accessor := Some (AccKey (PropStr "status"));
     cell := Some (λ a, VStr ("[" ++ js_String (value a) ++ "]"));
     width := None; align := None; sortable := None |}.

(** A column that derives its value with a function. *)
Definition column_shout : Column :=
  {| id := "shout"; header := VStr "Shout";
     accessor := Some (AccFn (λ r, VStr (js_String (row_get r (PropStr "name")) ++ "!")));
     cell := None; width := None; align := None; sortable := None |}.

(** A column with neither accessor nor cell renderer. *)
Definition column_blank : Column :=
  {| id := "blank"; header := VStr ""; accessor := None; cell := None;
     width := None; align := None; sortable := None |}.

(** Columns keyed by the empty property name, without and with a renderer
    that shows the value it is given. *)
Definition column_emptykey : Column :=
  {| id := "anon"; header := VStr "Anonymous";
     accessor := Some (AccKey (PropStr "")); cell := None;
     width := None; align := None; sortable := None |}.

Definition column_emptykey_cell : Column :=
  {| id := "anon"; header := VStr "Anonymous";
     accessor := Some (AccKey (PropStr "")); cell := Some value;
     width := None; align := None; sortable := None |}.

Definition alice : Row :=
  {[ "name" := VStr "Alice"; "status" := VStr "active" ]}.

Definition bob : Row :=
  {[ "name" := VStr "Bob"; "status" := VStr "away" ]}.

(** A row that owns a property whose name is the empty string. *)
Definition anonymous : Row := {[ "" := VStr "x" ]}.

Definition demo_columns : list Column := [column_name; column_status].

Definition demo_props (d : list Row) (busy : option bool)
    (empty : option jsval) : DataTableProps unit :=
  {| className := None; columns := demo_columns; data := d;
     loading := busy; emptyState := empty;
     bordered := None; striped := None; hoverable := None;
     getRowKey := None; onRowClick := None; props := [] |}.

(** The same props built a second time, with callbacks that are other
    closures doing the same thing. *)
Definition column_status' : Column :=
  {| id := "status"; header := VStr "Status";
     accessor := Some (AccKey (PropStr "status"));
     cell := Some (λ a, match a with
                        | mkCellProps v _ _ => VStr ("[" ++ js_String v ++ "]")
                        end);
     width := None; align := None; sortable := None |}.

Definition demo_props' (d : list Row) : DataTableProps unit :=
  {| className := None; columns := [column_name; column_status']; data := d;
     loading := None; emptyState := None;
     bordered := None; striped := None; hoverable := None;
     getRowKey := None; onRowClick := None; props := [] |}.

(** Props with a key-extraction function. *)
Definition keyed_props (d : list Row) : DataTableProps unit :=
  {| className := None; columns := demo_columns; data := d;
     loading := Some false; emptyState := None;
     bordered := None; striped := None; hoverable := None;
     getRowKey := Some (λ r _, KeyStr (js_String (row_get r (PropStr "name"))));
     onRowClick := None; props := [] |}.

(** ** Further readings of the rendered tree *)

(** The cells of the header row of a rendered table. *)
Definition thead_cells {effect} (n : node effect) : option (list (node effect)) :=
  table ← child_with_tag effect "table" n;
  thead ← child_with_tag effect "thead" table;
  tr ← child_with_tag effect "tr" thead;
  Some (children_of tr).

(** The tree without its [className] attributes: what is left once the
    styling is set aside. *)
Fixpoint strip_classes {effect} (n : node effect) : node effect :=
  match n with
  | Child v => Child v
  | Elem t k attrs c =>
      Elem t k
        (List.filter (λ a, negb (String.eqb (fst a) "className")) attrs)
        (List.map strip_classes c)
  | Comp name k r => Comp name k (strip_classes r)
  end.

(** The props with other styling: [className] and the three visual flags. *)
Definition with_style {effect} (p : DataTableProps effect)
    (cls : option string) (b s h : option bool) : DataTableProps effect :=
  {| className := cls; columns := columns p; data := data p;
     loading := loading p; emptyState := emptyState p;
     bordered := b; striped := s; hoverable := h;
     getRowKey := getRowKey p; onRowClick := onRowClick p;
     props := props p |}.

(** The props with other columns. *)
Definition with_columns {effect} (p : DataTableProps effect)
    (cols : list Column) : DataTableProps effect :=
  {| className := className p; columns := cols; data := data p;
     loading := loading p; emptyState := emptyState p;
     bordered := bordered p; striped := striped p;
     hoverable := hoverable p; getRowKey := getRowKey p;
     onRowClick := onRowClick p; props := props p |}.

(** The column with another [sortable] flag. *)
Definition set_sortable (s : option bool) (column : Column) : Column :=
  {| id := id column; header := header column; accessor := accessor column;
     cell := cell column; width := width column; align := align column;
     sortable := s |}.

(** Two columns with the same heading: all that the header row and the
    skeleton read of a column. *)
Definition same_heading (c1 c2 : Column) : Prop :=
  id c1 = id c2 ∧ header c1 = header c2
  ∧ width c1 = width c2 ∧ align c1 = align c2.

(** [String(key)], by which React tells the keys of siblings apart: the
    numbers 1 and the string "1" are one and the same key.  A number is
    spelled with its decimal digits, which is exact for whole numbers below
    10^21 in absolute value, among them every index of an array. *)
Definition key_string (k : Key) : string :=
  match k with
  | KeyStr s => s
  | KeyNum n => pretty n
  end.

(** The key of an element as React compares it; [None] without a key. *)
Definition sibling_key {effect} (n : node effect) : option string :=
  key_string <$> node_key n.

(** The key a data row is given. *)
Definition row_key {effect} (p : DataTableProps effect) (index : nat)
    (row : Row) : Key :=
  match getRowKey p with
  | Some f => f row index
  | None => KeyNum (Z.of_nat index)
  end.

(** ** String helpers of [lib/utils]

    A string is the list of its UTF-16 code units.  The development is
    generic in the type of code units; what it needs of them is the test
    [is_space] for the code units that [String.prototype.trim] removes
    (WhiteSpace and LineTerminator) and the full stop of the ellipsis.
    A [number] argument is an integer. *)

Section Strings.

Context {char : Type}.
Variable is_space : char → bool.
Variable dot : char.

(** [s.slice(start, end)]: a negative index counts from the end, both
    indices are clamped to the string, an empty range gives the empty
    string. *)
Definition slice (s : list char) (start end_ : Z) : list char :=
  let len := Z.of_nat (length s) in
  let from := if (start <? 0)%Z then Z.max (len + start) 0 else Z.min start len in
  let to := if (end_ <? 0)%Z then Z.max (len + end_) 0 else Z.min end_ len in
  take (Z.to_nat (to - from)) (drop (Z.to_nat from) s).

Fixpoint trimStart (s : list char) : list char :=
  match s with
  | [] => []
  | c :: r => if is_space c then trimStart r else s
  end.

Fixpoint trimEnd (s : list char) : list char :=
  match s with
  | [] => []
  | c :: r =>
      match trimEnd r with
      | [] => if is_space c then [] else [c]
      | r' => c :: r'
      end
  end.

(** [s.trim()] *)
Definition trim (s : list char) : list char := trimEnd (trimStart s).

(** Truncates text to a specified length with ellipsis *)
Definition truncate (str : list char) (length : Z) : list char :=
  if (Z.of_nat (List.length str) <=? length)%Z then str
  else trim (slice str 0 length) ++ [dot; dot; dot].

End Strings.

(** The code units below 256 that [trim] removes: TAB, LF, VT, FF, CR,
    SPACE and NO-BREAK SPACE. *)
Definition latin1_space (c : Ascii.ascii) : bool :=
  let n := Ascii.nat_of_ascii c in
  ((9 <=? n)%nat && (n <=? 13)%nat) || (n =? 32)%nat || (n =? 160)%nat.

(** [truncate] on strings of such code units. *)
Definition truncate_string (str : string) (length : Z) : string :=
  String.string_of_list_ascii
    (truncate latin1_space (Ascii.ascii_of_nat 46) (String.list_ascii_of_string str)
       length).

(** ** [debounce] of [lib/utils]

    [debounce(func, wait)] returns a function that keeps one variable,
    [timeoutId], and talks to the timers of the host: every call clears the
    timer it set before and sets a new one whose callback applies [func] to
    the arguments of that call.

    The host is modelled by its clock, the id it will hand out next and
    the table of the timers that are set; the callback of a timer is
    denoted by the arguments it closes over.  A [trace] records, oldest
    first, the calls of the debounced function and the calls of [func];
    it is an observation and no part of the code.  [A] is the type of the
    arguments of one call (with its [this]); [wait] is an integer number of
    milliseconds.  What delay the host makes of the number it is given is
    the host's affair ([host_delay]): a host keeps the delay in a signed
    32-bit integer, and replaces a delay out of its range by a short one. *)

Section Debounce.

Context {A : Type}.
Variable host_delay : Z → Z.
Variable wait : Z.

Inductive event : Type :=
| Called (t : Z) (args : A)
| Invoked (t : Z) (args : A).

Record world : Type := mkWorld {
  clock : Z;
  next_id : nat;
  timers : gmap nat (Z * A);
  timeoutId : option nat;
  trace : list event
}.

Definition set_timers (m : gmap nat (Z * A)) (w : world) : world :=
  {| clock := clock w; next_id := next_id w; timers := m;
     timeoutId := timeoutId w; trace := trace w |}.

Definition observe (e : event) (w : world) : world :=
  {| clock := clock w; next_id := next_id w; timers := timers w;
     timeoutId := timeoutId w; trace := trace w ++ [e] |}.

(** [clearTimeout(id)]: unsets the timer if it is still set; an id that is
    [undefined] or whose timer has gone is ignored. *)
Definition clearTimeout (id : option nat) (w : world) : world :=
  match id with
  | Some i => set_timers (delete i (timers w)) w
  | None => w
  end.

(** [setTimeout(() => func.apply(this, args), delay)]: sets a timer under a
    fresh id and returns the id. *)
Definition setTimeout (args : A) (delay : Z) (w : world) : nat * world :=
  (next_id w,
   {| clock := clock w; next_id := S (next_id w);
      timers := <[next_id w := ((clock w + host_delay delay)%Z, args)]> (timers w);
      timeoutId := timeoutId w; trace := trace w |}).

(** One call of the function that [debounce(func, wait)] returns. *)
Definition debounced (args : A) (w : world) : world :=
  let w := observe (Called (clock w) args) w in
  let w := clearTimeout (timeoutId w) w in
  let (id, w) := setTimeout args wait w in
  {| clock := clock w; next_id := next_id w; timers := timers w;
     timeoutId := Some id; trace := trace w |}.

(** Time passes on the host. *)
Definition advance (t : Z) (w : world) : world :=
  {| clock := Z.max (clock w) t; next_id := next_id w; timers := timers w;
     timeoutId := timeoutId w; trace := trace w |}.

(** The host runs the callback of a timer that is due: [func] is applied
    to the arguments the callback holds, and the timer is gone.  A timer
    that is not set, or not yet due, cannot run. *)
Definition fire (id : nat) (w : world) : option world :=
  match timers w !! id with
  | Some (deadline, args) =>
      if (deadline <=? clock w)%Z
      then Some (observe (Invoked (clock w) args)
                   (set_timers (delete id (timers w)) w))
      else None
  | None => None
  end.

(** The host at time [t0], before the debounced function was ever called. *)
Definition fresh_world (t0 : Z) : world :=
  {| clock := t0; next_id := 1; timers := ∅; timeoutId := None; trace := [] |}.

(** What can happen next: the debounced function is called, time passes,
    or the host runs a due timer, at its deadline or later. *)
Inductive step : world → world → Prop :=
| step_call (args : A) (w : world) : step w (debounced args w)
| step_advance (t : Z) (w : world) : step w (advance t w)
| step_fire (id : nat) (w w' : world) : fire id w = Some w' → step w w'.

Definition reachable (w : world) : Prop := ∃ t0, rtc step (fresh_world t0) w.

(** What every step keeps: the only timer that can be set is the one
    [timeoutId] names; it stands for the last call, which nothing has
    followed yet; and [func] was only ever applied right after the call it
    answers, once that call was [wait] old. *)
Definition debounce_inv (w : world) : Prop :=
  (∀ id x, timers w !! id = Some x → timeoutId w = Some id)
  ∧ (∀ id d a, timers w !! id = Some (d, a) →
       ∃ l t, trace w = (l ++ [Called t a])%list
              ∧ d = (t + host_delay wait)%Z)
  ∧ (∀ l1 t a l2, trace w = (l1 ++ Invoked t a :: l2)%list →
       ∃ l0 t0, l1 = (l0 ++ [Called t0 a])%list
                ∧ (t0 + host_delay wait ≤ t)%Z).

End Debounce.

Arguments Called {A} t args.
Arguments Invoked {A} t args.

(** A host keeps the delay it is given when that is a whole number of
    milliseconds from 1 to 2^31 - 1. *)
Definition keeps_delay (host_delay : Z → Z) : Prop :=
  ∀ d, (1 ≤ d ≤ 2147483647)%Z → host_delay d = d.

(** The delay of a host that replaces every delay out of that range by 1
    millisecond. *)
Definition clamping_delay (d : Z) : Z :=
  if ((1 <=? d) && (d <=? 2147483647))%Z then d else 1%Z.

(** ** Further sample inputs *)

(** A column reduced to its heading. *)
Definition bare_heading (column : Column) : Column :=
  {| id := id column; header := header column; accessor := None;
     cell := None; width := width column; align := align column;
     sortable := Some true |}.

(** Props whose rows report clicks as the name of the row and its index,
    with striping on. *)
Definition clicky_props (d : list Row) : DataTableProps (string * nat) :=
  {| className := Some "mt-4"; columns := demo_columns; data := d;
     loading := None; emptyState := None;
     bordered := None; striped := Some true; hoverable := None;
     getRowKey := None;
     onRowClick := Some (λ r i, (js_String (row_get r (PropStr "name")), i));
     props := [] |}.

(** Props that share nothing with [demo_props] but the headings of the
    columns and the styling of the wrapper. *)
Definition other_props (d : list Row) (busy : option bool)
    (empty : option jsval) : DataTableProps unit :=
  {| className := None; columns := bare_heading <$> demo_columns; data := d;
     loading := busy; emptyState := empty;
     bordered := None; striped := Some true; hoverable := Some false;
     getRowKey := Some (λ _ _, KeyStr "same");
     onRowClick := Some (λ _ _, tt); props := [] |}.

Definition hello : list Ascii.ascii :=
  String.list_ascii_of_string "Hello, world".

Definition full_stop : Ascii.ascii := Ascii.ascii_of_nat 46.

(** A debounced function with [wait = 300]: called with "a" at time 0 and
    with "b" at time 100; the timer of the second call runs at time 400. *)
Definition world_a : @world string :=
  debounced clamping_delay 300 "a" (fresh_world 0).

Definition world_b : @world string :=
  debounced clamping_delay 300 "b" (advance 100 world_a).

Definition world_done : @world string :=
  observe (Invoked 400 "b")
    (set_timers (delete 2%nat (timers (advance 400 world_b)))
       (advance 400 world_b)).

(** ** The resolver on any row and any callback

    The resolver once more, now without what the types promise: a row is
    an object with a prototype chain, so that [row[key]] also finds what the
    row inherits, and a caller-supplied function may throw instead of
    returning.  The code of [getCellValue] and [renderCell] is the same;
    an exception leaves them as it leaves any JavaScript function without
    [try], by ending the call. *)

(** How a call ends: it returns a value or throws one. *)
Inductive outcome : Type :=
| Returns (v : jsval)
| Throws (error : jsval).

Module Dynamic.

(** A row as a property read sees it: the properties it owns and the ones
    it inherits along its prototype chain (for each name the nearest
    definition).  Accessor properties are not modelled. *)
Record Row : Type := mkRow {
  own : gmap string jsval;
  inherited : gmap string jsval
}.

Inductive Accessor : Type :=
| AccKey (k : PropertyKey)
| AccFn (f : Row → outcome).

Record CellProps : Type := mkCellProps {
  value : jsval;
  row : Row;
  index : nat
}.

Record Column : Type := mkColumn {
  id : string;
  header : jsval;
  accessor : option Accessor;
  cell : option (CellProps → outcome);
  width : option Width;
  align : option Align;
  sortable : option bool
}.

Definition accessor_truthy (a : Accessor) : bool :=
  match a with
  | AccKey k => key_truthy k
  | AccFn _ => true
  end.

Section Resolver.

(** The name under which a number is looked up as a property key
    (its ToString). *)
Variable number_name : Z → string.

Definition key_name (k : PropertyKey) : string :=
  match k with
  | PropStr s => s
  | PropNum n => number_name n
  end.

(** [row[key]]: the own property, else the inherited one, else
    [undefined]. *)
Definition row_get (row : Row) (k : PropertyKey) : jsval :=
  match own row !! key_name k with
  | Some v => v
  | None => default VUndefined (inherited row !! key_name k)
  end.

Definition getCellValue (row : Row) (column : Column) : outcome :=
  match accessor column with
  | Some a =>
      if accessor_truthy a then
        match a with
        | AccFn f => f row
        | AccKey k => Returns (row_get row k)
        end
      else Returns VNull
  | None => Returns VNull
  end.

Definition renderCell (row : Row) (column : Column) (index : nat) : outcome :=
  match getCellValue row column with
  | Throws error => Throws error
  | Returns value =>
      match cell column with
      | Some render => render {| value := value; row := row; index := index |}
      | None => Returns value
      end
  end.

End Resolver.

End Dynamic.

(** A row of the first model, seen as a row without prototype; a column of
    the first model, its callbacks seen as callbacks that never throw. *)
Definition plain_row (row : Row) : Dynamic.Row :=
  {| Dynamic.own := row; Dynamic.inherited := ∅ |}.

Definition lift_column (column : Column) : Dynamic.Column :=
  {| Dynamic.id := id column;
     Dynamic.header := header column;
     Dynamic.accessor :=
       match accessor column with
       | Some (AccKey k) => Some (Dynamic.AccKey k)
       | Some (AccFn f) => Some (Dynamic.AccFn (λ r, Returns (f (Dynamic.own r))))
       | None => None
       end;
     Dynamic.cell :=
       match cell column with
       | Some render =>
           Some (λ a, Returns (render {| value := Dynamic.value a;
                                         row := Dynamic.own (Dynamic.row a);
                                         index := Dynamic.index a |}))
       | None => None
       end;
     Dynamic.width := width column;
     Dynamic.align := align column;
     Dynamic.sortable := sortable column |}.






(** * Properties of the cell resolver *)

(** The accessor step, case by case: a falsy key counts as no accessor. *)
Lemma getCellValue_cases (row : Row) (column : Column) :
  getCellValue row column =
    match accessor column with
    | Some (AccFn f) => f row
    | Some (AccKey k) => if key_truthy k then row_get row k else VNull
    | None => VNull
    end.
Proof.
  unfold getCellValue.
  destruct (accessor column) as [[k|f]|]; simpl; [|done..].
  by destruct (key_truthy k).
Qed.

Lemma renderCell_with_cell (row : Row) (column : Column) (index : nat)
    (render : CellProps → jsval) :
  cell column = Some render →
  renderCell row column index =
    render {| value := getCellValue row column; row := row; index := index |}.
Proof. intros Hcell. unfold renderCell. by rewrite Hcell. Qed.

Lemma renderCell_without_cell (row : Row) (column : Column) (index : nat) :
  cell column = None →
  renderCell row column index = getCellValue row column.
Proof. intros Hcell. unfold renderCell. by rewrite Hcell. Qed.

Lemma row_get_missing (row : Row) (k : PropertyKey) :
  row !! key_name k = None → row_get row k = VUndefined.
Proof. intros Hk. unfold row_get. by rewrite Hk. Qed.

(** C1 (as amended).  When a column has a [cell] renderer, the content of
    the cell at any row and row index is [cell({ value, row, index })] where
    [value] is the result of the accessor function on the row, or [row[key]]
    for a truthy field key, or [null] when the column has no accessor or its
    accessor is a falsy key. *)
Theorem renderCell_cell_receives_value (row : Row) (column : Column)
    (index : nat) (render : CellProps → jsval) :
  cell column = Some render →
  renderCell row column index =
    render {| value :=
                match accessor column with
                | Some (AccFn f) => f row
                | Some (AccKey k) =>
                    if key_truthy k then row_get row k else VNull
                | None => VNull
                end;
              row := row; index := index |}.
Proof.
  intros Hcell.
  rewrite (renderCell_with_cell _ _ _ _ Hcell).
  by rewrite getCellValue_cases.
Qed.

(** C2 (as amended).  For a column whose accessor is a truthy field key
    (a non-empty name, a non-zero index), the resolved value is [row[key]]
    for every row, and it is what the cell shows when the column has no
    [cell] renderer. *)
Theorem key_accessor_shows_field (row : Row) (column : Column) (index : nat)
    (k : PropertyKey) :
  accessor column = Some (AccKey k) →
  key_truthy k = true →
  getCellValue row column = row_get row k
  ∧ (cell column = None → renderCell row column index = row_get row k).
Proof.
  intros Hacc Hk.
  assert (getCellValue row column = row_get row k) as Hval.
  { rewrite getCellValue_cases, Hacc. by rewrite Hk. }
  split; [done|].
  intros Hcell. by rewrite renderCell_without_cell.
Qed.

(** C6.  For a column whose accessor is a function, the resolved value is
    [accessor(row)] for every row, and it is the content of the cell when the
    column has no [cell] renderer. *)
Theorem function_accessor_shown_directly (row : Row) (column : Column)
    (index : nat) (f : Row → jsval) :
  accessor column = Some (AccFn f) →
  getCellValue row column = f row
  ∧ (cell column = None → renderCell row column index = f row).
Proof.
  intros Hacc.
  assert (getCellValue row column = f row) as Hval.
  { by rewrite getCellValue_cases, Hacc. }
  split; [done|].
  intros Hcell. by rewrite renderCell_without_cell.
Qed.

(** ** The resolver on any row and any callback *)

Section DynamicProperties.

Variable number_name : Z → string.

(** On a row without prototype and with callbacks that return, the two
    models of the resolver agree. *)
Lemma renderCell_agrees (row : Row) (column : Column) (index : nat) :
  Dynamic.renderCell pretty (plain_row row) (lift_column column) index
  = Returns (renderCell row column index).
Proof.
  unfold Dynamic.renderCell, Dynamic.getCellValue, renderCell, getCellValue.
  simpl.
  destruct (accessor column) as [[k|f]|]; simpl.
  - destruct (key_truthy k); simpl; [|by destruct (cell column)].
    unfold Dynamic.row_get, row_get. simpl. rewrite lookup_empty.
    destruct k as [name|n]; simpl;
      by destruct (row !! _); destruct (cell column).
  - by destruct (cell column).
  - by destruct (cell column).
Qed.



End DynamicProperties.

(** C9.  Whether a column has an accessor is decided by truthiness: with a
    falsy field key (the empty name, the index 0) the column resolves like
    the same column without accessor, to [null], whatever the row holds
    under that key; a [cell] renderer is given [value = null]. *)
Theorem falsy_key_is_no_accessor (row : Row) (column : Column) (index : nat)
    (k : PropertyKey) :
  accessor column = Some (AccKey k) →
  key_truthy k = false →
  getCellValue row column = VNull
  ∧ renderCell row column index = renderCell row (without_accessor column) index
  ∧ (cell column = None → renderCell row column index = VNull)
  ∧ (∀ render, cell column = Some render →
       renderCell row column index
         = render {| value := VNull; row := row; index := index |}).
Proof.
  intros Hacc Hk.
  assert (getCellValue row column = VNull) as Hval.
  { rewrite getCellValue_cases, Hacc. by rewrite Hk. }
  repeat split.
  - done.
  - unfold renderCell. rewrite Hval. done.
  - intros Hcell. by rewrite renderCell_without_cell.
  - intros render Hcell.
    by rewrite (renderCell_with_cell _ _ _ _ Hcell), Hval.
Qed.

(** * Properties of the table renderer *)

Section TableProperties.

Context {effect : Type}.
Context (clsx : list ClassValue → string) (twMerge : string → string).

Implicit Types (p : DataTableProps effect) (d : list Row).

Local Abbreviation render := (DataTable clsx twMerge).

(** The body of the table in each of the three states. *)
Lemma tbody_loading p :
  loading p = Some true →
  tbody_rows (render p)
    = Some ((λ i : nat,
               Comp "SkeletonRow" (Some (KeyNum (Z.of_nat i)))
                 (SkeletonRow (length (columns p))))
              <$> seq 0 5).
Proof. intros Hl. unfold DataTable, tbody_rows. rewrite Hl. reflexivity. Qed.

Lemma tbody_empty p :
  default false (loading p) = false →
  data p = [] →
  tbody_rows (render p)
    = Some [emptyRow (length (columns p))
              (js_or (default VUndefined (emptyState p)) noData)].
Proof.
  intros Hl Hd. unfold DataTable, tbody_rows. rewrite Hl, Hd. reflexivity.
Qed.

(** The skeleton row holds one placeholder cell per column. *)
Lemma placeholders_seq (a n : nat) :
  forallb is_placeholder
    ((λ i : nat,
        @Elem effect "td" (Some (KeyNum (Z.of_nat i)))
          [("className", AttrStr "p-4")]
          [Elem "div" None
             [("className", AttrStr "h-4 bg-neutral-200 rounded animate-pulse")]
             []])
       <$> seq a n) = true.
Proof.
  revert a. induction n as [|n IH]; intros a; [done|].
  simpl. apply IH.
Qed.

Lemma SkeletonRow_cells (n : nat) :
  length (children_of (@SkeletonRow effect n)) = n
  ∧ forallb is_placeholder (children_of (@SkeletonRow effect n)) = true.
Proof.
  unfold SkeletonRow. simpl. split.
  - by rewrite length_fmap, length_seq.
  - apply placeholders_seq.
Qed.

(** C3.  With [loading = true] the body is exactly 5 skeleton rows, each of
    one placeholder cell per column, whatever the columns and the data; the
    rendered table is the same for any two [data] arrays. *)
Theorem loading_shows_five_skeleton_rows p :
  loading p = Some true →
  (∃ rows,
     tbody_rows (render p) = Some rows
     ∧ length rows = 5
     ∧ Forall (λ r,
         (∃ i : nat, r = Comp "SkeletonRow" (Some (KeyNum (Z.of_nat i)))
                          (SkeletonRow (length (columns p))))
         ∧ length (children_of (rendered_of r)) = length (columns p)
         ∧ forallb is_placeholder (children_of (rendered_of r)) = true) rows)
  ∧ (∀ d, render (with_data p d) = render p)
  ∧ (∀ d1 d2, render (with_data p d1) = render (with_data p d2)).
Proof.
  intros Hl. split; [|split].
  - eexists. split; [by apply tbody_loading|]. split; [done|].
    apply Forall_fmap, Forall_forall. intros i _. simpl.
    split; [by exists i|]. apply SkeletonRow_cells.
  - intros d. unfold DataTable. simpl. by rewrite Hl.
  - intros d1 d2. unfold DataTable. simpl. by rewrite Hl.
Qed.

(** C4 (as amended).  With [loading = false] and an empty [data] array the
    body is exactly one row of a single cell whose [colSpan] is the number
    of columns; the cell shows the caller's [emptyState] when that is
    truthy (any React element is), and the default "No data available"
    message when no [emptyState] is supplied. *)
Theorem empty_shows_single_spanning_row p :
  default false (loading p) = false →
  data p = [] →
  (∃ content,
     tbody_rows (render p) = Some [emptyRow (length (columns p)) content]
     ∧ (∀ e, emptyState p = Some e → truthy e = true → content = e)
     ∧ (emptyState p = None → content = noData))
  ∧ (∀ tr, tbody_rows (render p) = Some [tr] →
       ∃ td, children_of tr = [td]
         ∧ attr "colSpan" td = Some (AttrNum (length (columns p)))).
Proof.
  intros Hl Hd. rewrite (tbody_empty p Hl Hd). split.
  - eexists. split; [reflexivity|]. split.
    + intros e He Ht. rewrite He. simpl. unfold js_or. by rewrite Ht.
    + intros He. by rewrite He.
  - intros tr [= <-]. eexists. split; reflexivity.
Qed.

(** C10.  In the empty state a caller-supplied [emptyState] that is falsy
    (the empty string, [0], [false], [null]) is not shown: the cell holds the
    default "No data available" message, the right operand of [||]. *)
Theorem falsy_emptyState_shows_default p (e : jsval) :
  default false (loading p) = false →
  data p = [] →
  emptyState p = Some e →
  truthy e = false →
  tbody_rows (render p) = Some [emptyRow (length (columns p)) noData].
Proof.
  intros Hl Hd He Ht. rewrite (tbody_empty p Hl Hd), He. simpl.
  unfold js_or. by rewrite Ht.
Qed.

(** C5.  With [loading = false] and N ≥ 1 elements of [data] the body is
    exactly N rows; the row at index [i] is the one of [data[i]]: its cells
    show the resolved cells of that element, column by column, and its key
    is [getRowKey(row, i)] when [getRowKey] is supplied and [i] otherwise. *)
Theorem populated_shows_rows_in_order p :
  default false (loading p) = false →
  (1 ≤ length (data p))%nat →
  ∃ rows,
    tbody_rows (render p) = Some rows
    ∧ length rows = length (data p)
    ∧ ∀ i row, data p !! i = Some row →
        ∃ tr, rows !! i = Some tr
          ∧ node_key tr
              = Some (match getRowKey p with
                      | Some f => f row i
                      | None => KeyNum (Z.of_nat i)
                      end)
          ∧ cell_contents tr
              = (λ column, Some (renderCell row column i)) <$> columns p.
Proof.
  intros Hl Hn. unfold DataTable, tbody_rows. rewrite Hl.
  assert ((length (data p) =? 0)%nat = false) as ->.
  { apply Nat.eqb_neq. lia. }
  simpl. eexists. split; [reflexivity|].
  split; [by rewrite length_imap|].
  intros i row Hi.
  rewrite list_lookup_imap, Hi. simpl.
  eexists. split; [reflexivity|]. split; [done|].
  unfold cell_contents. simpl. rewrite <- list_fmap_compose. done.
Qed.

(** ** The table as a function of its props *)

Lemma align_is_equiv (a : Align) (c1 c2 : Column) :
  column_equiv c1 c2 → align_is a c1 = align_is a c2.
Proof. intros E. unfold align_is. by rewrite (equiv_align _ _ E). Qed.

Lemma getCellValue_equiv (row : Row) (c1 c2 : Column) :
  column_equiv c1 c2 → getCellValue row c1 = getCellValue row c2.
Proof.
  intros E. rewrite !getCellValue_cases.
  pose proof (equiv_accessor _ _ E) as Ha. unfold accessor_equiv in Ha.
  destruct (accessor c1) as [[k1|f1]|], (accessor c2) as [[k2|f2]|];
    try done.
  by subst.
Qed.

Lemma renderCell_equiv (row : Row) (c1 c2 : Column) (index : nat) :
  column_equiv c1 c2 → renderCell row c1 index = renderCell row c2 index.
Proof.
  intros E. unfold renderCell.
  rewrite (getCellValue_equiv row c1 c2 E).
  pose proof (equiv_cell _ _ E) as Hc. unfold fun_equiv in Hc.
  by destruct (cell c1), (cell c2).
Qed.

Lemma fmap_Forall2_ext {A B} (R : A → A → Prop) (f g : A → B) (l1 l2 : list A) :
  Forall2 R l1 l2 → (∀ x y, R x y → f x = g y) → f <$> l1 = g <$> l2.
Proof.
  intros Hl Hfg. induction Hl as [|x y l1 l2 Hxy _ IH]; [done|].
  rewrite !fmap_cons. by rewrite (Hfg x y Hxy), IH.
Qed.

Lemma column_equiv_refl (c : Column) : column_equiv c c.
Proof.
  split; try done.
  - unfold accessor_equiv. by destruct (accessor c) as [[?|?]|].
  - unfold fun_equiv. by destruct (cell c).
Qed.

Lemma props_equiv_refl p : props_equiv p p.
Proof.
  split; try done.
  - apply Forall2_same_length_lookup. split; [done|].
    intros i c1 c2 H1 H2. rewrite H1 in H2. injection H2 as <-.
    apply column_equiv_refl.
  - unfold fun2_equiv. by destruct (getRowKey p).
  - unfold fun2_equiv. by destruct (onRowClick p).
Qed.

(** Props that cannot be told apart render the same tree: props that agree
    field by field, their callbacks ([accessor], [cell], [getRowKey],
    [onRowClick]) agreeing on every argument; and columns that cannot be
    told apart resolve every row to the same cell. *)
Lemma render_is_function_of_props :
  (∀ p1 p2, props_equiv p1 p2 → render p1 = render p2)
  ∧ (∀ p, props_equiv p p)
  ∧ (∀ row c1 c2 index,
       column_equiv c1 c2 → renderCell row c1 index = renderCell row c2 index).
Proof.
  split; [|split; [apply props_equiv_refl|]].
  - intros p1 p2 E. unfold DataTable.
    destruct E as [Hcn Hcols Hdata Hload Hempty Hb Hs Hh Hkey Hclick Hprops].
    rewrite Hcn, Hdata, Hload, Hempty, Hb, Hs, Hh, Hprops,
      (Forall2_length _ _ _ Hcols).
    unfold fun2_equiv in Hkey, Hclick.
    destruct (getRowKey p1) as [k1|], (getRowKey p2) as [k2|]; try done;
      destruct (onRowClick p1) as [h1|], (onRowClick p2) as [h2|]; try done;
      cbv zeta.
    all: erewrite (fmap_Forall2_ext column_equiv _ _ _ _ Hcols); cycle 1.
    all: try (intros c1 c2 Ec;
              rewrite (equiv_id _ _ Ec), (equiv_header _ _ Ec),
                (equiv_width _ _ Ec), !(align_is_equiv _ c1 c2 Ec);
              reflexivity).
    all: erewrite (imap_ext _ _ (data p2)); [reflexivity|].
    all: intros i row _; cbv beta zeta.
    all: erewrite (fmap_Forall2_ext column_equiv _ _ _ _ Hcols); cycle 1.
    all: try (intros c1 c2 Ec;
              rewrite (equiv_id _ _ Ec), (renderCell_equiv row c1 c2 i Ec),
                !(align_is_equiv _ c1 c2 Ec);
              reflexivity).
    all: simpl; rewrite ?Hkey, ?Hclick; reflexivity.
  - intros row c1 c2 index. apply renderCell_equiv.
Qed.

End TableProperties.

(** * The scenarios of the specification, evaluated *)

(** One row of data: cell 1 shows "Alice", cell 2 shows "[active]". *)
Example scenario_populated :
  (λ rows : list (node unit), cell_contents <$> rows)
    <$> tbody_rows (DataTable clsx_join tw_id (demo_props [alice] None None))
  = Some [[Some (VStr "Alice"); Some (VStr "[active]")]].
Proof. reflexivity. Qed.

(** No data, not loading: one row spanning the 2 columns with the default
    text. *)
Example scenario_empty :
  tbody_rows (DataTable clsx_join tw_id (demo_props [] (Some false) None))
  = Some [emptyRow 2 (VElem "div" "py-12 text-neutral-500"
                        [VStr "No data available"])].
Proof. reflexivity. Qed.

(** Loading: 5 rows of 2 placeholder cells, the data being ignored. *)
Example scenario_loading :
  (λ rows : list (node unit),
     (λ r, forallb is_placeholder (children_of (rendered_of r))
           && (length (children_of (rendered_of r)) =? 2)%nat) <$> rows)
    <$> tbody_rows (DataTable clsx_join tw_id (demo_props [alice] (Some true) None))
  = Some [true; true; true; true; true].
Proof. reflexivity. Qed.

(** * Instances and counterexamples *)

(** C1, the claim as worded fails for a column keyed by the empty property
    name: the row owns that property, yet the renderer is given [null]. *)
Lemma cell_value_emptykey_counterexample :
  cell column_emptykey_cell = Some value
  ∧ renderCell anonymous column_emptykey_cell 0 = VNull
  ∧ value {| value := spec_value anonymous column_emptykey_cell;
             row := anonymous; index := 0 |} = VStr "x"
  ∧ renderCell anonymous column_emptykey_cell 0
    ≠ value {| value := spec_value anonymous column_emptykey_cell;
               row := anonymous; index := 0 |}.
Proof. repeat split. vm_compute. discriminate. Qed.

Lemma renderCell_cell_receives_value_witness :
  (∃ render, cell column_status = Some render)
  ∧ renderCell alice column_status 0 = VStr "[active]"
  ∧ renderCell anonymous column_emptykey_cell 0
    = value {| value := VNull; row := anonymous; index := 0 |}.
Proof.
  split; [eexists; reflexivity|]. split.
  - exact (renderCell_cell_receives_value alice column_status 0 _ eq_refl).
  - exact (renderCell_cell_receives_value anonymous column_emptykey_cell 0
             value eq_refl).
Defined.

(** C2, the claim as worded fails for the empty property name: the row
    holds "x" under it and the cell resolves to [null]. *)
Lemma key_accessor_emptykey_counterexample :
  accessor column_emptykey = Some (AccKey (PropStr ""))
  ∧ cell column_emptykey = None
  ∧ row_get anonymous (PropStr "") = VStr "x"
  ∧ renderCell anonymous column_emptykey 0 = VNull
  ∧ renderCell anonymous column_emptykey 0 ≠ row_get anonymous (PropStr "").
Proof. repeat split. vm_compute. discriminate. Qed.

Lemma key_accessor_shows_field_witness :
  accessor column_name = Some (AccKey (PropStr "name"))
  ∧ key_truthy (PropStr "name") = true
  ∧ getCellValue alice column_name = row_get alice (PropStr "name")
  ∧ (cell column_name = None →
     renderCell alice column_name 0 = row_get alice (PropStr "name")).
Proof.
  split; [reflexivity|]. split; [reflexivity|].
  exact (key_accessor_shows_field alice column_name 0 (PropStr "name")
           eq_refl eq_refl).
Defined.

Lemma function_accessor_shown_directly_witness :
  accessor column_shout
    = Some (AccFn (λ r, VStr (js_String (row_get r (PropStr "name")) ++ "!")))
  ∧ getCellValue alice column_shout = VStr "Alice!"
  ∧ (cell column_shout = None → renderCell alice column_shout 0 = VStr "Alice!").
Proof.
  split; [reflexivity|].
  exact (function_accessor_shown_directly alice column_shout 0 _ eq_refl).
Defined.



Lemma falsy_key_is_no_accessor_witness :
  accessor column_emptykey = Some (AccKey (PropStr ""))
  ∧ key_truthy (PropStr "") = false
  ∧ row_get anonymous (PropStr "") = VStr "x"
  ∧ getCellValue anonymous column_emptykey = VNull
  ∧ renderCell anonymous column_emptykey 0
    = renderCell anonymous (without_accessor column_emptykey) 0.
Proof.
  split; [reflexivity|]. split; [reflexivity|]. split; [reflexivity|].
  pose proof (falsy_key_is_no_accessor anonymous column_emptykey 0
                (PropStr "") eq_refl eq_refl) as (Hval & Hsame & _).
  exact (conj Hval Hsame).
Defined.

Lemma loading_shows_five_skeleton_rows_witness :
  loading (demo_props [alice] (Some true) None) = Some true
  ∧ (∃ rows,
       tbody_rows (DataTable clsx_join tw_id (demo_props [alice] (Some true) None))
         = Some rows
       ∧ length rows = 5)
  ∧ DataTable clsx_join tw_id (with_data (demo_props [alice] (Some true) None) [bob])
    = DataTable clsx_join tw_id (with_data (demo_props [alice] (Some true) None) []).
Proof.
  split; [reflexivity|].
  pose proof (loading_shows_five_skeleton_rows clsx_join tw_id
                (demo_props [alice] (Some true) None) eq_refl)
    as ((rows & Hrows & Hlen & _) & _ & Hdata).
  split.
  - exists rows. exact (conj Hrows Hlen).
  - exact (Hdata [bob] []).
Defined.

(** C4, the claim as worded fails for [emptyState = 0]: the caller supplied
    it, and the cell shows the default message instead. *)
Lemma empty_state_zero_counterexample :
  default false (loading (demo_props [] None (Some (VNum 0)))) = false
  ∧ data (demo_props [] None (Some (VNum 0))) = []
  ∧ spec_emptyContent (emptyState (demo_props [] None (Some (VNum 0)))) = VNum 0
  ∧ tbody_rows (DataTable clsx_join tw_id (demo_props [] None (Some (VNum 0))))
    = Some [emptyRow 2 noData]
  ∧ tbody_rows (DataTable clsx_join tw_id (demo_props [] None (Some (VNum 0))))
    ≠ Some [emptyRow 2
              (spec_emptyContent (emptyState (demo_props [] None (Some (VNum 0)))))].
Proof. repeat split. vm_compute. discriminate. Qed.

Lemma empty_shows_single_spanning_row_witness :
  default false (loading (demo_props [] None (Some (VStr "Nothing yet")))) = false
  ∧ data (demo_props [] None (Some (VStr "Nothing yet"))) = []
  ∧ ∃ content,
      tbody_rows (DataTable clsx_join tw_id
                    (demo_props [] None (Some (VStr "Nothing yet"))))
        = Some [emptyRow 2 content]
      ∧ content = VStr "Nothing yet".
Proof.
  split; [reflexivity|]. split; [reflexivity|].
  pose proof (empty_shows_single_spanning_row clsx_join tw_id
                (demo_props [] None (Some (VStr "Nothing yet")))
                eq_refl eq_refl)
    as ((content & Hrows & Hsupplied & _) & _).
  exists content. split; [exact Hrows|].
  exact (Hsupplied (VStr "Nothing yet") eq_refl eq_refl).
Defined.

Lemma falsy_emptyState_shows_default_witness :
  default false (loading (demo_props [] None (Some (VStr "")))) = false
  ∧ data (demo_props [] None (Some (VStr ""))) = []
  ∧ emptyState (demo_props [] None (Some (VStr ""))) = Some (VStr "")
  ∧ truthy (VStr "") = false
  ∧ tbody_rows (DataTable clsx_join tw_id (demo_props [] None (Some (VStr ""))))
    = Some [emptyRow 2 noData].
Proof.
  do 4 (split; [reflexivity|]).
  exact (falsy_emptyState_shows_default clsx_join tw_id
           (demo_props [] None (Some (VStr ""))) (VStr "")
           eq_refl eq_refl eq_refl eq_refl).
Defined.

Lemma populated_shows_rows_in_order_witness :
  default false (loading (keyed_props [alice; bob])) = false
  ∧ (1 ≤ length (data (keyed_props [alice; bob])))%nat
  ∧ ∃ rows,
      tbody_rows (DataTable clsx_join tw_id (keyed_props [alice; bob])) = Some rows
      ∧ length rows = 2
      ∧ ∃ tr, rows !! 1%nat = Some tr
          ∧ node_key tr = Some (KeyStr "Bob")
          ∧ cell_contents tr = [Some (VStr "Bob"); Some (VStr "[away]")].
Proof.
  split; [reflexivity|]. split; [simpl; lia|].
  pose proof (populated_shows_rows_in_order clsx_join tw_id
                (keyed_props [alice; bob]) eq_refl (le_S 1 1 (le_n 1)))
    as (rows & Hrows & Hlen & Hrow).
  exists rows. split; [exact Hrows|]. split; [exact Hlen|].
  exact (Hrow 1%nat bob eq_refl).
Defined.

Lemma render_is_function_of_props_witness :
  props_equiv (demo_props [alice] None None) (demo_props' [alice])
  ∧ DataTable clsx_join tw_id (demo_props [alice] None None)
    = DataTable clsx_join tw_id (demo_props' [alice]).
Proof.
  assert (column_equiv column_status column_status') as Hstatus.
  { split; try reflexivity. intros [v r i]. reflexivity. }
  assert (props_equiv (demo_props [alice] None None) (demo_props' [alice]))
    as Hprops.
  { split; try reflexivity; try exact I.
    constructor; [apply column_equiv_refl|].
    constructor; [exact Hstatus|]. constructor. }
  split; [exact Hprops|].
  exact (proj1 (render_is_function_of_props clsx_join tw_id) _ _ Hprops).
Defined.

(** * Further properties of the table renderer *)

Section TableInvariants.

Context {effect : Type}.
Context (clsx : list ClassValue → string) (twMerge : string → string).

Implicit Types (p : DataTableProps effect) (d : list Row).

Local Abbreviation render := (DataTable clsx twMerge).

(** The body of the table, state by state. *)
Lemma tbody_cases p :
  ∃ rows,
    tbody_rows (render p) = Some rows
    ∧ ((default false (loading p) = true ∧ length rows = 5)
       ∨ (default false (loading p) = false ∧ data p = []
          ∧ rows = [emptyRow (length (columns p))
                      (js_or (default VUndefined (emptyState p)) noData)])
       ∨ (default false (loading p) = false ∧ data p ≠ []
          ∧ length rows = length (data p))).
Proof.
  unfold DataTable, tbody_rows. cbv zeta.
  destruct (default false (loading p)) eqn:Hl; simpl.
  - eexists. split; [reflexivity|]. by left.
  - destruct (data p) as [|r0 rest] eqn:Hd; simpl.
    + eexists. split; [reflexivity|]. right. by left.
    + eexists. split; [reflexivity|]. do 2 right.
      repeat split; [done|]. simpl. by rewrite length_imap.
Qed.

(** X1.  The header row is rendered in every state, whatever [loading] and
    [data] are: one [th] per column, in the order of the columns, keyed by
    the column id, showing the column header and styled with the column
    width. *)
Theorem header_rendered_in_every_state p :
  ∃ cells,
    thead_cells (render p) = Some cells
    ∧ length cells = length (columns p)
    ∧ node_key <$> cells = (λ c, Some (KeyStr (id c))) <$> columns p
    ∧ content_of <$> cells = (λ c, Some (header c)) <$> columns p
    ∧ attr "style" <$> cells
      = (λ c, Some (AttrStyleWidth (width c))) <$> columns p
    ∧ Forall (λ c, tag_is effect "th" c = true) cells.
Proof.
  unfold DataTable, thead_cells. cbv zeta. simpl.
  eexists. split; [reflexivity|].
  rewrite length_fmap, <- !list_fmap_compose.
  do 4 (split; [done|]).
  apply Forall_fmap, Forall_forall. by intros c _.
Qed.

(** X2.  The body is never empty: it holds 5 rows while loading, 1 row when
    there is no data, and as many rows as [data] otherwise; [loading] wins
    over an empty [data]. *)
Theorem body_row_count p :
  ∃ rows,
    tbody_rows (render p) = Some rows
    ∧ length rows
      = (if default false (loading p) then 5
         else Nat.max 1 (length (data p)))
    ∧ rows ≠ [].
Proof.
  destruct (tbody_cases p) as (rows & Hrows & Hcase).
  exists rows. split; [done|].
  destruct Hcase as [[Hl Hn]|[(Hl & Hd & ->)|(Hl & Hd & Hn)]]; rewrite Hl.
  - split; [done|]. intros ->. done.
  - rewrite Hd. done.
  - destruct (data p) as [|r0 rest]; [done|].
    split; [simpl in *; lia|]. intros ->. done.
Qed.

(** The rows of the populated state. *)
Lemma tbody_data_row p (i : nat) (row : Row) :
  default false (loading p) = false →
  data p !! i = Some row →
  ∃ rows tr,
    tbody_rows (render p) = Some rows
    ∧ rows !! i = Some tr
    ∧ node_key tr = Some (row_key p i row)
    ∧ attr "onClick" tr = Some (AttrHandler ((λ f, f row i) <$> onRowClick p))
    ∧ node_key <$> children_of tr = (λ c, Some (KeyStr (id c))) <$> columns p.
Proof.
  intros Hl Hi. unfold DataTable, tbody_rows. rewrite Hl.
  assert ((length (data p) =? 0)%nat = false) as ->.
  { apply Nat.eqb_neq. apply lookup_lt_Some in Hi. lia. }
  simpl. do 2 eexists. split; [reflexivity|].
  rewrite list_lookup_imap, Hi. simpl. split; [reflexivity|].
  split; [done|]. split; [done|].
  simpl. by rewrite <- list_fmap_compose.
Qed.

Lemma tbody_populated_keys p :
  default false (loading p) = false →
  data p ≠ [] →
  ∃ rows,
    tbody_rows (render p) = Some rows
    ∧ node_key <$> rows = Some <$> imap (row_key p) (data p).
Proof.
  intros Hl Hd. unfold DataTable, tbody_rows. rewrite Hl.
  assert ((length (data p) =? 0)%nat = false) as ->.
  { apply Nat.eqb_neq. by destruct (data p). }
  simpl. eexists. split; [reflexivity|].
  rewrite !fmap_imap. by apply imap_ext.
Qed.

(** X3.  A data row hands its own element and position to [onRowClick]:
    firing the handler of row [i] is [onRowClick(data[i], i)], and does
    nothing when no [onRowClick] is supplied.  The rows of the loading and
    empty states carry no click handler. *)
Theorem row_click_passes_row_and_index p :
  (∀ i row,
     default false (loading p) = false →
     data p !! i = Some row →
     ∃ rows tr,
       tbody_rows (render p) = Some rows
       ∧ rows !! i = Some tr
       ∧ attr "onClick" tr
         = Some (AttrHandler ((λ f, f row i) <$> onRowClick p)))
  ∧ (default false (loading p) = true ∨ data p = [] →
     ∃ rows,
       tbody_rows (render p) = Some rows
       ∧ Forall (λ r, attr "onClick" r = None
                      ∧ attr "onClick" (rendered_of r) = None) rows).
Proof.
  split.
  - intros i row Hl Hi.
    destruct (tbody_data_row p i row Hl Hi) as (rows & tr & H1 & H2 & _ & H3 & _).
    by exists rows, tr.
  - intros Hstate. unfold DataTable, tbody_rows. cbv zeta.
    destruct (default false (loading p)) eqn:Hl; simpl.
    + eexists. split; [reflexivity|]. repeat constructor.
    + destruct Hstate as [?|Hd]; [done|]. rewrite Hd. simpl.
      eexists. split; [reflexivity|]. repeat constructor.
Qed.

Lemma index_keys_distinct (a n : nat) :
  NoDup ((λ i : nat, Some (pretty (Z.of_nat i))) <$> seq a n).
Proof.
  apply NoDup_fmap_2; [|apply NoDup_seq].
  intros i j [= Hij]. apply (inj pretty) in Hij. lia.
Qed.

Lemma id_keys_distinct (cols : list Column) :
  NoDup (id <$> cols) → NoDup ((λ c, Some (id c)) <$> cols).
Proof.
  intros Hc. rewrite (list_fmap_compose id Some).
  apply NoDup_fmap_2; [|done]. by intros ?? [=].
Qed.

(** X4.  Sibling keys, compared the way React compares them, as strings.
    Without a [getRowKey] the rows of the body have pairwise distinct keys
    in every state; and when the column ids are distinct, the cells of the
    header and of every body row have pairwise distinct keys. *)
Theorem sibling_keys_distinct p :
  (getRowKey p = None →
   ∃ rows, tbody_rows (render p) = Some rows ∧ NoDup (sibling_key <$> rows))
  ∧ (NoDup (id <$> columns p) →
     (∃ cells, thead_cells (render p) = Some cells
               ∧ NoDup (sibling_key <$> cells))
     ∧ ∃ rows, tbody_rows (render p) = Some rows
         ∧ Forall (λ r, NoDup (sibling_key <$> children_of (rendered_of r)))
             rows).
Proof.
  split.
  - intros Hk.
    destruct (default false (loading p)) eqn:Hl.
    + assert (loading p = Some true) as Hl'.
      { by destruct (loading p) as [[]|]. }
      rewrite (tbody_loading _ _ p Hl'). eexists. split; [reflexivity|].
      rewrite <- list_fmap_compose. apply index_keys_distinct.
    + destruct (decide (data p = [])) as [Hd|Hd].
      * rewrite (tbody_empty _ _ p Hl Hd). eexists. split; [reflexivity|].
        apply NoDup_singleton.
      * destruct (tbody_populated_keys p Hl Hd) as (rows & Hrows & Hkeys).
        exists rows. split; [done|].
        assert (sibling_key <$> rows = fmap key_string <$> (node_key <$> rows))
          as -> by (by rewrite <- list_fmap_compose).
        rewrite Hkeys, <- list_fmap_compose, fmap_imap.
        rewrite (imap_ext _ (λ (i : nat) (_ : Row), Some (pretty (Z.of_nat i)))).
        { rewrite imap_seq_0. apply index_keys_distinct. }
        intros i r _. unfold row_key. by rewrite Hk.
  - intros Hids. split.
    + unfold DataTable, thead_cells. cbv zeta. simpl.
      eexists. split; [reflexivity|].
      rewrite <- list_fmap_compose. by apply id_keys_distinct.
    + unfold DataTable, tbody_rows. cbv zeta.
      destruct (default false (loading p)) eqn:Hl.
      * simpl. eexists. split; [reflexivity|].
        repeat (apply Forall_cons; split;
                [unfold SkeletonRow, rendered_of, children_of;
                 rewrite <- list_fmap_compose; apply index_keys_distinct|]).
        apply Forall_nil_2.
      * destruct (decide (data p = [])) as [Hd|Hd].
        -- rewrite Hd. simpl. eexists. split; [reflexivity|].
           apply Forall_singleton. simpl. apply NoDup_singleton.
        -- assert ((length (data p) =? 0)%nat = false) as ->.
           { apply Nat.eqb_neq. by destruct (data p). }
           simpl. eexists. split; [reflexivity|].
           apply Forall_forall. intros tr Htr.
           apply elem_of_lookup_imap in Htr as (i & row & -> & _).
           simpl. rewrite <- list_fmap_compose. by apply id_keys_distinct.
Qed.

(** ** What the renderer does not read *)

Lemma align_is_same_heading (a : Align) (c1 c2 : Column) :
  same_heading c1 c2 → align_is a c1 = align_is a c2.
Proof. intros (_ & _ & _ & Ha). unfold align_is. by rewrite Ha. Qed.

(** The header row reads the heading of a column and nothing else. *)
Lemma header_cells_same_heading (b : bool) (cols1 cols2 : list Column) :
  Forall2 same_heading cols1 cols2 →
  (λ column,
     @Elem effect "th" (Some (KeyStr (id column)))
       [("className",
         AttrStr (cn clsx twMerge [
           ClassStr "h-12 px-4 text-left align-middle font-medium text-neutral-500";
           class_and (align_is center column) (ClassStr "text-center");
           class_and (align_is right column) (ClassStr "text-right");
           class_and b (ClassStr "border-r last:border-r-0")]));
        ("style", AttrStyleWidth (width column))]
       [Child (header column)]) <$> cols1
  = (λ column,
     @Elem effect "th" (Some (KeyStr (id column)))
       [("className",
         AttrStr (cn clsx twMerge [
           ClassStr "h-12 px-4 text-left align-middle font-medium text-neutral-500";
           class_and (align_is center column) (ClassStr "text-center");
           class_and (align_is right column) (ClassStr "text-right");
           class_and b (ClassStr "border-r last:border-r-0")]));
        ("style", AttrStyleWidth (width column))]
       [Child (header column)]) <$> cols2.
Proof.
  intros Hcols. apply (fmap_Forall2_ext same_heading); [done|].
  intros c1 c2 Hc.
  rewrite !(align_is_same_heading _ c1 c2 Hc).
  destruct Hc as (-> & -> & -> & _). done.
Qed.

(** X5.  While loading, the table reads nothing but the styling of the
    wrapper ([className], [bordered], the remaining attributes) and the
    heading of each column (its id, header, width and alignment): [data],
    [emptyState], [striped], [hoverable], [getRowKey], [onRowClick] and the
    accessors and cell renderers of the columns have no influence, so none
    of the callbacks is called. *)
Theorem loading_reads_only_headings p1 p2 :
  loading p1 = Some true →
  loading p2 = Some true →
  className p1 = className p2 →
  bordered p1 = bordered p2 →
  props p1 = props p2 →
  Forall2 same_heading (columns p1) (columns p2) →
  render p1 = render p2.
Proof.
  intros Hl1 Hl2 Hcn Hb Hprops Hcols. unfold DataTable.
  rewrite Hl1, Hl2, Hcn, Hb, Hprops, (Forall2_length _ _ _ Hcols).
  cbv zeta. simpl.
  by rewrite (header_cells_same_heading _ _ _ Hcols).
Qed.

(** X6.  With no data and [loading] off, the table reads the same inputs
    as while loading and the [emptyState]: no accessor, cell renderer,
    [getRowKey] or [onRowClick] is called, and [striped] and [hoverable] do
    not matter. *)
Theorem empty_state_reads_no_callback p1 p2 :
  default false (loading p1) = false →
  default false (loading p2) = false →
  data p1 = [] →
  data p2 = [] →
  className p1 = className p2 →
  bordered p1 = bordered p2 →
  props p1 = props p2 →
  emptyState p1 = emptyState p2 →
  Forall2 same_heading (columns p1) (columns p2) →
  render p1 = render p2.
Proof.
  intros Hl1 Hl2 Hd1 Hd2 Hcn Hb Hprops He Hcols. unfold DataTable.
  rewrite Hl1, Hl2, Hd1, Hd2, Hcn, Hb, Hprops, He, (Forall2_length _ _ _ Hcols).
  cbv zeta. simpl.
  by rewrite (header_cells_same_heading _ _ _ Hcols).
Qed.

(** X8.  The [sortable] flag of a column is never read: the table renders
    the same tree whatever the flags are, and in particular never reorders
    the rows. *)
Theorem sortable_is_inert p (flag : Column → option bool) :
  render (with_columns p ((λ c, set_sortable (flag c) c) <$> columns p))
  = render p.
Proof.
  unfold DataTable, with_columns. simpl.
  rewrite length_fmap, <- list_fmap_compose.
  do 6 f_equal.
  destruct (default false (loading p)); [done|].
  destruct (negb false && (length (data p) =? 0)%nat); [done|].
  apply imap_ext. intros i row _. simpl.
  by rewrite <- list_fmap_compose.
Qed.

Lemma map_fmap {A B} (f : A → B) (l : list A) : List.map f l = f <$> l.
Proof. induction l as [|x l IH]; [done|]. simpl. by rewrite IH. Qed.

(** X7.  [className] and the visual flags [bordered], [striped] and
    [hoverable] change class names and nothing else: once the [className]
    attributes are set aside, the rendered tree (its elements, keys, cell
    contents, column widths and click handlers) does not depend on them. *)
Theorem styling_changes_only_class_names p (cls : option string)
    (b s h : option bool) :
  strip_classes (render (with_style p cls b s h)) = strip_classes (render p).
Proof.
  unfold DataTable, with_style. simpl.
  rewrite !map_fmap, <- !list_fmap_compose.
  do 4 f_equal.
  destruct (default false (loading p)); [done|].
  destruct (negb false && (length (data p) =? 0)%nat); [done|].
  rewrite !map_fmap, !fmap_imap.
  do 2 f_equal.
  apply imap_ext. intros i row _. simpl.
  rewrite !map_fmap, <- !list_fmap_compose. done.
Qed.

Lemma tbody_data_row_class p (i : nat) (row : Row) :
  default false (loading p) = false →
  data p !! i = Some row →
  ∃ rows tr,
    tbody_rows (render p) = Some rows
    ∧ rows !! i = Some tr
    ∧ attr "className" tr
      = Some (AttrStr (cn clsx twMerge [
          ClassStr "border-b transition-colors";
          class_and (default false (striped p))
            (class_and (i mod 2 =? 1)%nat (ClassStr "bg-neutral-50"));
          class_and (default true (hoverable p)) (ClassStr "hover:bg-neutral-50");
          match onRowClick p with
          | Some _ => ClassStr "cursor-pointer"
          | None => ClassUndefined
          end])).
Proof.
  intros Hl Hi. unfold DataTable, tbody_rows. rewrite Hl.
  assert ((length (data p) =? 0)%nat = false) as ->.
  { apply Nat.eqb_neq. apply lookup_lt_Some in Hi. lia. }
  simpl. do 2 eexists. split; [reflexivity|].
  rewrite list_lookup_imap, Hi. split; reflexivity.
Qed.

(** X9.  Zebra striping is positional: the class of a data row is decided
    by the parity of its index and by the props, never by the content of
    the row; with [striped] off all data rows have the same class. *)
Theorem row_class_depends_on_parity p (i j : nat) (ri rj : Row) :
  default false (loading p) = false →
  data p !! i = Some ri →
  data p !! j = Some rj →
  default false (striped p) = false ∨ i mod 2 = j mod 2 →
  ∃ rows ti tj,
    tbody_rows (render p) = Some rows
    ∧ rows !! i = Some ti
    ∧ rows !! j = Some tj
    ∧ attr "className" ti = attr "className" tj.
Proof.
  intros Hl Hi Hj Hpar.
  destruct (tbody_data_row_class p i ri Hl Hi) as (rows & ti & Hrows & Hti & Hci).
  destruct (tbody_data_row_class p j rj Hl Hj) as (rows' & tj & Hrows' & Htj & Hcj).
  rewrite Hrows in Hrows'. injection Hrows' as <-.
  exists rows, ti, tj. repeat split; [done..|].
  rewrite Hci, Hcj.
  destruct Hpar as [Hs|Hpar]; [by rewrite Hs|by rewrite Hpar].
Qed.

End TableInvariants.

(** * Properties of the string helpers *)

Section StringProperties.

Local Open Scope list_scope.

Context {char : Type}.
Context (is_space : char → bool) (dot : char).

Implicit Types (s str : list char) (c : char).

Lemma trimStart_split s :
  ∃ ws, s = ws ++ trimStart is_space s ∧ forallb is_space ws = true.
Proof.
  induction s as [|c r (ws & Hr & Hws)]; [by exists []|].
  simpl. destruct (is_space c) eqn:Hc.
  - exists (c :: ws). simpl. rewrite Hc, Hws. split; [by rewrite <- Hr|done].
  - by exists [].
Qed.

Lemma trimStart_head s c r :
  trimStart is_space s = c :: r → is_space c = false.
Proof.
  induction s as [|c' r' IH]; [done|].
  simpl. destruct (is_space c') eqn:Hc; [done|].
  by intros [= <- _].
Qed.

Lemma trimStart_id s :
  (∀ c, s !! 0%nat = Some c → is_space c = false) → trimStart is_space s = s.
Proof.
  destruct s as [|c r]; [done|]. intros H. simpl. by rewrite (H c).
Qed.

Lemma trimEnd_split s :
  ∃ ws, s = trimEnd is_space s ++ ws ∧ forallb is_space ws = true.
Proof.
  induction s as [|c r (ws & Hr & Hws)]; [by exists []|].
  simpl. destruct (trimEnd is_space r) as [|c' r'] eqn:Ht.
  - destruct (is_space c) eqn:Hc.
    + exists (c :: ws). simpl in *. subst r. by rewrite Hc, Hws.
    + exists ws. simpl in *. by subst r.
  - exists ws. split; [|done]. simpl. f_equal. exact Hr.
Qed.

Lemma trimEnd_last s c :
  last (trimEnd is_space s) = Some c → is_space c = false.
Proof.
  induction s as [|c' r IH]; [done|].
  simpl. destruct (trimEnd is_space r) as [|c'' r'] eqn:Ht.
  - destruct (is_space c') eqn:Hc; [done|]. by intros [= <-].
  - intros Hl. apply IH. exact Hl.
Qed.

Lemma trimEnd_head s c :
  s !! 0%nat = Some c → is_space c = false →
  trimEnd is_space s !! 0%nat = Some c.
Proof.
  destruct s as [|c' r]; [done|]. intros [= ->] Hc. simpl.
  destruct (trimEnd is_space r); [by rewrite Hc|done].
Qed.

Lemma trimEnd_head_inv s c :
  trimEnd is_space s !! 0%nat = Some c → s !! 0%nat = Some c.
Proof.
  destruct s as [|c' r]; [done|]. simpl.
  destruct (trimEnd is_space r); [by destruct (is_space c')|done].
Qed.

Lemma trimEnd_id s :
  (∀ c, last s = Some c → is_space c = false) → trimEnd is_space s = s.
Proof.
  induction s as [|c r IH]; [done|]. intros H. simpl.
  destruct r as [|c' r'].
  - simpl. by rewrite (H c).
  - rewrite IH; [done|]. intros c0 Hc0. apply H. exact Hc0.
Qed.

(** [trim] removes whitespace at both ends and nothing else. *)
Lemma trim_split s :
  ∃ ws1 ws2,
    s = ws1 ++ trim is_space s ++ ws2
    ∧ forallb is_space ws1 = true ∧ forallb is_space ws2 = true.
Proof.
  destruct (trimStart_split s) as (ws1 & H1 & Hws1).
  destruct (trimEnd_split (trimStart is_space s)) as (ws2 & H2 & Hws2).
  exists ws1, ws2. unfold trim. by rewrite <- H2, <- H1.
Qed.

Lemma trim_ends s :
  (∀ c, trim is_space s !! 0%nat = Some c → is_space c = false)
  ∧ (∀ c, last (trim is_space s) = Some c → is_space c = false).
Proof.
  unfold trim. split.
  - intros c Hc. apply trimEnd_head_inv in Hc.
    destruct (trimStart is_space s) as [|c' r] eqn:Hs; [done|].
    injection Hc as ->. by apply (trimStart_head s c r).
  - apply trimEnd_last.
Qed.

Lemma trim_length s : (length (trim is_space s) ≤ length s)%nat.
Proof.
  destruct (trim_split s) as (ws1 & ws2 & Hs & _).
  rewrite Hs at 2. rewrite !length_app. lia.
Qed.

Lemma trim_id s :
  (∀ c, s !! 0%nat = Some c → is_space c = false) →
  (∀ c, last s = Some c → is_space c = false) →
  trim is_space s = s.
Proof.
  intros Hh Hl. unfold trim. rewrite trimStart_id by done. by apply trimEnd_id.
Qed.

(** [str.slice(0, n)] is a prefix of [str]: of [n] code units for [n]
    between 0 and the length, and [str] without its last [-n] code units for
    a negative [n]. *)
Lemma slice_prefix str (n : Z) :
  slice str 0 n
  = take (Z.to_nat (if (n <? 0)%Z
                    then Z.of_nat (length str) + n
                    else Z.min n (Z.of_nat (length str)))) str.
Proof.
  unfold slice. simpl. rewrite (Z.min_l 0) by lia. simpl.
  destruct (Z.ltb_spec n 0); f_equal; lia.
Qed.

(** X10.  [truncate] returns a string that fits its [length] unchanged.
    Otherwise the result is not bounded by [length] but by [length + 3]
    (for a [length] that is not negative): the ellipsis comes on top of the
    limit.  In every case the result is at most 3 code units longer than
    the input. *)
Theorem truncate_length_bound str (n : Z) :
  (Z.of_nat (length str) ≤ n → truncate is_space dot str n = str)%Z
  ∧ (0 ≤ n → Z.of_nat (length (truncate is_space dot str n)) ≤ n + 3)%Z
  ∧ (length (truncate is_space dot str n) ≤ length str + 3)%nat.
Proof.
  unfold truncate.
  destruct (Z.leb_spec (Z.of_nat (length str)) n) as [Hfit|Hlong].
  - repeat split; [lia..].
  - pose proof (trim_length (slice str 0 n)) as Htrim.
    rewrite slice_prefix in *. rewrite length_take in Htrim.
    rewrite length_app. simpl.
    split; [lia|]. split; [|lia].
    intros Hn. destruct (Z.ltb_spec n 0); lia.
Qed.

(** X11.  A string longer than [length] is cut to its first [length] code
    units (for a negative [length]: to all but its last [-length] code
    units), that prefix loses the whitespace at its two ends and nothing
    else, and "..." is appended: the kept text is a contiguous part of the
    input that neither starts nor ends with whitespace. *)
Theorem truncate_keeps_trimmed_prefix str (n : Z) :
  (n < Z.of_nat (length str))%Z →
  ∃ ws1 kept ws2 rest,
    truncate is_space dot str n = kept ++ [dot; dot; dot]
    ∧ str = ws1 ++ kept ++ ws2 ++ rest
    ∧ forallb is_space ws1 = true
    ∧ forallb is_space ws2 = true
    ∧ Z.of_nat (length (ws1 ++ kept ++ ws2))
      = (if (n <? 0)%Z then Z.max (Z.of_nat (length str) + n) 0 else n)
    ∧ (∀ c, kept !! 0%nat = Some c → is_space c = false)
    ∧ (∀ c, last kept = Some c → is_space c = false).
Proof.
  intros Hlong. unfold truncate.
  destruct (Z.leb_spec (Z.of_nat (length str)) n) as [Hfit|_]; [lia|].
  destruct (trim_split (slice str 0 n)) as (ws1 & ws2 & Hs & Hws1 & Hws2).
  destruct (trim_ends (slice str 0 n)) as [Hhead Hlast].
  exists ws1, (trim is_space (slice str 0 n)), ws2.
  rewrite slice_prefix in *.
  eexists (drop _ str).
  split; [done|].
  split.
  { rewrite !app_assoc, <- (app_assoc ws1), <- Hs. symmetry. apply take_drop. }
  split; [done|]. split; [done|].
  split; [|done].
  rewrite <- Hs, length_take. destruct (Z.ltb_spec n 0); lia.
Qed.

(** X12.  Truncating can lengthen: when the string exceeds [length] by
    one or two code units and the kept prefix has no whitespace at its
    ends, the result has [length + 3] code units, more than the input. *)
Theorem truncate_can_lengthen str (n : nat) (a b : char) :
  (0 < n < length str)%nat →
  (length str < n + 3)%nat →
  str !! 0%nat = Some a →
  str !! (n - 1)%nat = Some b →
  is_space a = false →
  is_space b = false →
  length (truncate is_space dot str (Z.of_nat n)) = (n + 3)%nat
  ∧ (length str < length (truncate is_space dot str (Z.of_nat n)))%nat.
Proof.
  intros Hn Hshort Ha Hb Hsa Hsb.
  assert (truncate is_space dot str (Z.of_nat n) = take n str ++ [dot; dot; dot])
    as ->.
  { unfold truncate.
    destruct (Z.leb_spec (Z.of_nat (length str)) (Z.of_nat n)); [lia|].
    rewrite slice_prefix.
    destruct (Z.ltb_spec (Z.of_nat n) 0); [lia|].
    rewrite Z.min_l, Nat2Z.id by lia.
    rewrite trim_id; [done| |].
    - intros c Hc. rewrite lookup_take_lt in Hc by lia. congruence.
    - intros c Hc. rewrite last_lookup, length_take in Hc.
      rewrite Nat.min_l in Hc by lia.
      replace (Nat.pred n) with (n - 1)%nat in Hc by lia.
      rewrite lookup_take_lt in Hc by lia. congruence. }
  rewrite length_app, length_take. simpl. lia.
Qed.

End StringProperties.

(** * Properties of [debounce] *)

Section DebounceProperties.

Local Open Scope list_scope.

Context {A : Type} (host_delay : Z → Z) (wait : Z).

Implicit Types (w : @world A) (a args : A) (t : Z).

Local Abbreviation call := (debounced host_delay wait).

Lemma snoc_split {B} (l1 l2 l : list B) (x e : B) :
  l1 ++ x :: l2 = l ++ [e] →
  (l2 = [] ∧ l1 = l ∧ x = e) ∨ (∃ l2', l2 = l2' ++ [e] ∧ l = l1 ++ x :: l2').
Proof.
  destruct l2 as [|y l2 _] using rev_ind; intros Heq.
  - left. apply (app_inj_tail l1 l x e) in Heq as [-> ->]. done.
  - right. exists l2. split; [|].
    + f_equal. f_equal.
      change (l1 ++ x :: l2 ++ [y]) with (l1 ++ (x :: l2) ++ [y]) in Heq.
      rewrite app_assoc in Heq. by apply app_inj_tail in Heq as [_ ->].
    + change (l1 ++ x :: l2 ++ [y]) with (l1 ++ (x :: l2) ++ [y]) in Heq.
      rewrite app_assoc in Heq. by apply app_inj_tail in Heq as [<- _].
Qed.

Lemma debounce_inv_fresh (t0 : Z) :
  debounce_inv host_delay wait (@fresh_world A t0).
Proof.
  split; [|split]; simpl.
  - intros id x Hx. by rewrite lookup_empty in Hx.
  - intros id d a Hx. by rewrite lookup_empty in Hx.
  - intros l1 t a l2 Hl. by destruct l1.
Qed.

(** The timers after a call. *)
Lemma debounced_timers w a :
  timers (call a w)
  = <[next_id w := ((clock w + host_delay wait)%Z, a)]>
      (match timeoutId w with
       | Some i => delete i (timers w)
       | None => timers w
       end).
Proof. unfold debounced. simpl. by destruct (timeoutId w). Qed.

Lemma debounced_trace w a :
  trace (call a w) = trace w ++ [Called (clock w) a].
Proof. unfold debounced. simpl. by destruct (timeoutId w). Qed.

Lemma debounced_timeoutId w a : timeoutId (call a w) = Some (next_id w).
Proof. unfold debounced. simpl. by destruct (timeoutId w). Qed.

Lemma debounced_clock w a : clock (call a w) = clock w.
Proof. unfold debounced. simpl. by destruct (timeoutId w). Qed.

(** A call unsets every timer that was set. *)
Lemma cleared_timers w :
  (∀ id x, timers w !! id = Some x → timeoutId w = Some id) →
  match timeoutId w with
  | Some i => delete i (timers w)
  | None => timers w
  end = ∅.
Proof.
  intros H1. apply map_empty. intros id.
  destruct (timeoutId w) as [i|] eqn:Hi.
  - destruct (decide (i = id)) as [->|Hne]; [apply lookup_delete_eq|].
    rewrite lookup_delete_ne by done.
    destruct (timers w !! id) as [x|] eqn:Hx; [|done].
    specialize (H1 id x Hx). congruence.
  - destruct (timers w !! id) as [x|] eqn:Hx; [|done].
    by specialize (H1 id x Hx).
Qed.

Lemma debounced_single_timer w a :
  debounce_inv host_delay wait w →
  timers (call a w) = {[next_id w := ((clock w + host_delay wait)%Z, a)]}.
Proof.
  intros (H1 & _ & _). rewrite debounced_timers, cleared_timers by done. done.
Qed.

Lemma debounce_inv_step w w' :
  debounce_inv host_delay wait w →
  step host_delay wait w w' →
  debounce_inv host_delay wait w'.
Proof.
  intros Hinv Hstep. pose proof Hinv as (H1 & H2 & H3).
  destruct Hstep as [args w|t w|id w w' Hfire].
  - pose proof (debounced_single_timer w args Hinv) as Ht.
    split; [|split].
    + intros id x. rewrite Ht, debounced_timeoutId.
      intros [<- _]%lookup_singleton_Some. done.
    + intros id d a. rewrite Ht, debounced_trace.
      intros [_ [= <- <-]]%lookup_singleton_Some. by exists (trace w), (clock w).
    + intros l1 t a l2. rewrite debounced_trace. intros Hl. symmetry in Hl.
      apply snoc_split in Hl as [(_ & _ & [=])|(l2' & _ & Htr)].
      by apply (H3 l1 t a l2').
  - done.
  - unfold fire in Hfire.
    destruct (timers w !! id) as [[d a]|] eqn:Hid; [|done].
    destruct (Z.leb_spec d (clock w)) as [Hdue|]; [|done].
    injection Hfire as <-. simpl.
    assert (delete id (timers w) = ∅) as Ht.
    { apply map_empty. intros j.
      destruct (decide (id = j)) as [->|Hne]; [apply lookup_delete_eq|].
      rewrite lookup_delete_ne by done.
      destruct (timers w !! j) as [x|] eqn:Hx; [|done].
      pose proof (H1 j x Hx). pose proof (H1 id _ Hid). congruence. }
    split; [|split]; simpl.
    + intros j x. by rewrite Ht, lookup_empty.
    + intros j d' a'. by rewrite Ht, lookup_empty.
    + intros l1 t a' l2 Hl. symmetry in Hl.
      apply snoc_split in Hl as [(_ & -> & [= -> ->])|(l2' & _ & Htr)].
      * destruct (H2 id d a Hid) as (l & t0 & Hl & ->).
        exists l, t0. split; [done|lia].
      * by apply (H3 l1 t a' l2').
Qed.

Lemma reachable_inv w :
  reachable host_delay wait w → debounce_inv host_delay wait w.
Proof.
  intros [t0 Hsteps]. revert w Hsteps. apply rtc_ind_r.
  - apply debounce_inv_fresh.
  - intros w1 w2 _ Hstep IH. by apply (debounce_inv_step w1 w2).
Qed.

(** X13.  At most one timer is set at any time, and it is the one that
    [timeoutId] names: calls never pile up timers. *)
Theorem debounce_at_most_one_timer w (i j : nat) (x y : Z * A) :
  reachable host_delay wait w →
  timers w !! i = Some x →
  timers w !! j = Some y →
  i = j ∧ timeoutId w = Some i.
Proof.
  intros Hw Hi Hj. destruct (reachable_inv w Hw) as (H1 & _ & _).
  pose proof (H1 i x Hi) as Hti. pose proof (H1 j y Hj) as Htj.
  split; [congruence|done].
Qed.

(** X14.  A call replaces whatever was pending: after it, exactly one
    timer is set; its callback holds the arguments of that call, and it is
    due after the delay the host makes of [wait], which is [wait]
    milliseconds for a [wait] from 1 to 2^31 - 1 on a host that keeps such
    delays. *)
Theorem debounce_call_replaces_pending w a :
  reachable host_delay wait w →
  timers (call a w) = {[next_id w := ((clock w + host_delay wait)%Z, a)]}
  ∧ (keeps_delay host_delay → (1 ≤ wait ≤ 2147483647)%Z →
     timers (call a w) = {[next_id w := ((clock w + wait)%Z, a)]}).
Proof.
  intros Hw.
  pose proof (debounced_single_timer w a (reachable_inv w Hw)) as Ht.
  split; [done|].
  intros Hkeeps Hrange. by rewrite Ht, (Hkeeps wait Hrange).
Qed.

(** X15.  [func] is only ever applied right after the call it answers:
    in the trace, an application of [func] directly follows the call of the
    debounced function that carried the same arguments, and that call is
    older by at least the delay the host makes of [wait]: at least [wait]
    milliseconds for a [wait] from 1 to 2^31 - 1 on a host that keeps such
    delays.  So [func] is never applied synchronously, never with the
    arguments of a call that another call followed, and never twice for one
    call. *)
Theorem debounce_quiet_period w (l1 l2 : list (@event A)) t a :
  reachable host_delay wait w →
  trace w = l1 ++ Invoked t a :: l2 →
  ∃ l0 t0,
    l1 = l0 ++ [Called t0 a]
    ∧ (t0 + host_delay wait ≤ t)%Z
    ∧ (keeps_delay host_delay → (1 ≤ wait ≤ 2147483647)%Z →
       (t0 + wait ≤ t)%Z).
Proof.
  intros Hw Htr. destruct (reachable_inv w Hw) as (_ & _ & H3).
  destruct (H3 l1 t a l2 Htr) as (l0 & t0 & Hl & Hold).
  exists l0, t0. split; [done|]. split; [done|].
  intros Hkeeps Hrange. by rewrite <- (Hkeeps wait Hrange).
Qed.

(** X16.  A call that no other call follows is delivered: once the delay
    the host makes of [wait] has passed, the timer it set can run, [func] is
    applied to its arguments and no timer is left.  Before that no timer
    can run; in particular not before [wait] milliseconds have passed, for
    a [wait] from 1 to 2^31 - 1 on a host that keeps such delays. *)
Theorem debounce_lone_call_delivered w a t :
  reachable host_delay wait w →
  ((clock w ≤ t)%Z → (clock w + host_delay wait ≤ t)%Z →
   ∃ w', fire (next_id w) (advance t (call a w)) = Some w'
         ∧ trace w' = trace w ++ [Called (clock w) a; Invoked t a]
         ∧ timers w' = ∅)
  ∧ ((0 < host_delay wait)%Z → (t < clock w + host_delay wait)%Z →
     ∀ id, fire id (advance t (call a w)) = None)
  ∧ (keeps_delay host_delay → (1 ≤ wait ≤ 2147483647)%Z →
     (t < clock w + wait)%Z →
     ∀ id, fire id (advance t (call a w)) = None).
Proof.
  intros Hw.
  pose proof (debounced_single_timer w a (reachable_inv w Hw)) as Ht.
  set (w1 := advance t (call a w)).
  assert (timers w1 = {[next_id w := ((clock w + host_delay wait)%Z, a)]})
    as Ht1 by exact Ht.
  assert (clock w1 = Z.max (clock w) t) as Hc1.
  { unfold w1. by rewrite <- (debounced_clock w a). }
  assert (trace w1 = trace w ++ [Called (clock w) a]) as Htr1
    by exact (debounced_trace w a).
  clearbody w1.
  assert ((0 < host_delay wait)%Z → (t < clock w + host_delay wait)%Z →
          ∀ id, fire id w1 = None) as Hearly.
  { intros Hpos Hlt id. unfold fire. rewrite Ht1, Hc1.
    destruct (decide (next_id w = id)) as [<-|Hne].
    - rewrite lookup_singleton_eq.
      destruct (Z.leb_spec (clock w + host_delay wait) (Z.max (clock w) t));
        [lia|done].
    - by rewrite lookup_singleton_ne. }
  split; [|split; [exact Hearly|]].
  - intros Hnow Hlate.
    exists (observe (Invoked t a) (set_timers ∅ w1)).
    split; [|split].
    + unfold fire. rewrite Ht1, lookup_singleton_eq, Hc1.
      rewrite (Z.max_r (clock w) t) by lia.
      destruct (Z.leb_spec (clock w + host_delay wait) t) as [_|]; [|lia].
      by rewrite delete_singleton_eq.
    + change (trace w1 ++ [Invoked t a]
              = trace w ++ [Called (clock w) a; Invoked t a]).
      by rewrite Htr1, <- app_assoc.
    + done.
  - intros Hkeeps Hrange Hlt.
    apply Hearly; rewrite (Hkeeps wait Hrange); lia.
Qed.

End DebounceProperties.

(** * Instances of the further properties *)

Lemma row_click_passes_row_and_index_witness :
  ∃ rows tr,
    tbody_rows (DataTable clsx_join tw_id (clicky_props [alice; bob])) = Some rows
    ∧ rows !! 1%nat = Some tr
    ∧ attr "onClick" tr = Some (AttrHandler (Some ("Bob", 1%nat))).
Proof.
  exact (proj1 (row_click_passes_row_and_index clsx_join tw_id
                  (clicky_props [alice; bob])) 1%nat bob eq_refl eq_refl).
Defined.

Lemma demo_ids_distinct : NoDup (id <$> demo_columns).
Proof.
  apply NoDup_cons. split; [by intros [=]%list_elem_of_singleton|].
  apply NoDup_singleton.
Defined.

Lemma sibling_keys_distinct_witness :
  getRowKey (clicky_props [alice; bob]) = None
  ∧ NoDup (id <$> columns (clicky_props [alice; bob]))
  ∧ (∃ rows,
       tbody_rows (DataTable clsx_join tw_id (clicky_props [alice; bob]))
         = Some rows
       ∧ NoDup (sibling_key <$> rows))
  ∧ (∃ cells,
       thead_cells (DataTable clsx_join tw_id (clicky_props [alice; bob]))
         = Some cells
       ∧ NoDup (sibling_key <$> cells)).
Proof.
  split; [reflexivity|]. split; [exact demo_ids_distinct|].
  pose proof (sibling_keys_distinct clsx_join tw_id (clicky_props [alice; bob]))
    as (Hrows & Hcells).
  split.
  - exact (Hrows eq_refl).
  - exact (proj1 (Hcells demo_ids_distinct)).
Defined.

Lemma demo_same_heading :
  Forall2 same_heading demo_columns (bare_heading <$> demo_columns).
Proof.
  constructor; [by repeat split|]. constructor; [by repeat split|]. constructor.
Defined.

Lemma loading_reads_only_headings_witness :
  loading (demo_props [alice] (Some true) None) = Some true
  ∧ loading (other_props [bob; bob] (Some true) (Some (VStr "none"))) = Some true
  ∧ DataTable clsx_join tw_id (demo_props [alice] (Some true) None)
    = DataTable clsx_join tw_id
        (other_props [bob; bob] (Some true) (Some (VStr "none"))).
Proof.
  split; [reflexivity|]. split; [reflexivity|].
  exact (loading_reads_only_headings clsx_join tw_id
           (demo_props [alice] (Some true) None)
           (other_props [bob; bob] (Some true) (Some (VStr "none")))
           eq_refl eq_refl eq_refl eq_refl eq_refl demo_same_heading).
Defined.

Lemma empty_state_reads_no_callback_witness :
  data (demo_props [] None (Some (VStr "none"))) = []
  ∧ data (other_props [] (Some false) (Some (VStr "none"))) = []
  ∧ DataTable clsx_join tw_id (demo_props [] None (Some (VStr "none")))
    = DataTable clsx_join tw_id (other_props [] (Some false) (Some (VStr "none"))).
Proof.
  split; [reflexivity|]. split; [reflexivity|].
  exact (empty_state_reads_no_callback clsx_join tw_id
           (demo_props [] None (Some (VStr "none")))
           (other_props [] (Some false) (Some (VStr "none")))
           eq_refl eq_refl eq_refl eq_refl eq_refl eq_refl eq_refl eq_refl
           demo_same_heading).
Defined.

Lemma row_class_depends_on_parity_witness :
  default false (striped (clicky_props [alice; bob; bob])) = true
  ∧ ∃ rows ti tj,
      tbody_rows (DataTable clsx_join tw_id (clicky_props [alice; bob; bob]))
        = Some rows
      ∧ rows !! 0%nat = Some ti
      ∧ rows !! 2%nat = Some tj
      ∧ attr "className" ti = attr "className" tj.
Proof.
  split; [reflexivity|].
  exact (row_class_depends_on_parity clsx_join tw_id
           (clicky_props [alice; bob; bob]) 0 2 alice bob
           eq_refl eq_refl eq_refl (or_intror eq_refl)).
Defined.

Lemma truncate_length_bound_witness :
  truncate latin1_space full_stop hello 12 = hello
  ∧ (Z.of_nat (length (truncate latin1_space full_stop hello 5)) ≤ 5 + 3)%Z.
Proof.
  pose proof (truncate_length_bound latin1_space full_stop hello 12)
    as (Hfit & _ & _).
  pose proof (truncate_length_bound latin1_space full_stop hello 5)
    as (_ & Hbound & _).
  split.
  - apply Hfit. by vm_compute.
  - apply Hbound. by vm_compute.
Defined.

Lemma truncate_keeps_trimmed_prefix_witness :
  (6 < Z.of_nat (length hello))%Z
  ∧ ∃ kept : list Ascii.ascii,
      truncate latin1_space full_stop hello 6
        = (kept ++ [full_stop; full_stop; full_stop])%list
      ∧ (∀ c, last kept = Some c → latin1_space c = false).
Proof.
  assert (6 < Z.of_nat (length hello))%Z as Hlong by (by vm_compute).
  split; [exact Hlong|].
  destruct (truncate_keeps_trimmed_prefix latin1_space full_stop hello 6 Hlong)
    as (ws1 & kept & ws2 & rest & Hcut & _ & _ & _ & _ & _ & Hlast).
  exists kept. exact (conj Hcut Hlast).
Defined.

Lemma truncate_can_lengthen_witness :
  length hello = 12%nat
  ∧ length (truncate latin1_space full_stop hello (Z.of_nat 11)) = 14%nat.
Proof.
  split; [reflexivity|].
  apply (truncate_can_lengthen latin1_space full_stop hello 11
           (Ascii.ascii_of_nat 72) (Ascii.ascii_of_nat 108)).
  - by vm_compute; lia.
  - by vm_compute; lia.
  - reflexivity.
  - reflexivity.
  - reflexivity.
  - reflexivity.
Defined.

Lemma clamping_keeps_delay : keeps_delay clamping_delay.
Proof.
  intros d Hd. unfold clamping_delay.
  destruct (Z.leb_spec 1 d); [|lia].
  destruct (Z.leb_spec d 2147483647); [done|lia].
Qed.

Lemma world_a_later_reachable :
  reachable clamping_delay 300 (advance 100 world_a).
Proof.
  exists 0%Z.
  eapply rtc_l; [apply (step_call clamping_delay 300 "a")|].
  eapply rtc_l; [apply (step_advance clamping_delay 300 100)|].
  apply rtc_refl.
Qed.

Lemma world_b_reachable : reachable clamping_delay 300 world_b.
Proof.
  exists 0%Z.
  eapply rtc_l; [apply (step_call clamping_delay 300 "a")|].
  eapply rtc_l; [apply (step_advance clamping_delay 300 100)|].
  eapply rtc_l; [apply (step_call clamping_delay 300 "b")|].
  apply rtc_refl.
Qed.

Lemma world_done_reachable : reachable clamping_delay 300 world_done.
Proof.
  exists 0%Z.
  eapply rtc_l; [apply (step_call clamping_delay 300 "a")|].
  eapply rtc_l; [apply (step_advance clamping_delay 300 100)|].
  eapply rtc_l; [apply (step_call clamping_delay 300 "b")|].
  eapply rtc_l; [apply (step_advance clamping_delay 300 400)|].
  eapply rtc_l; [apply (step_fire clamping_delay 300 2); reflexivity|].
  apply rtc_refl.
Qed.

Lemma debounce_at_most_one_timer_witness :
  timers world_b !! 2%nat = Some (400%Z, "b")
  ∧ timeoutId world_b = Some 2%nat.
Proof.
  split; [reflexivity|].
  exact (proj2 (debounce_at_most_one_timer clamping_delay 300 world_b 2 2 _ _
                  world_b_reachable eq_refl eq_refl)).
Defined.

Lemma debounce_call_replaces_pending_witness :
  timers world_a !! 1%nat = Some (300%Z, "a")
  ∧ (1 ≤ 300 ≤ 2147483647)%Z
  ∧ timers (debounced clamping_delay 300 "b" (advance 100 world_a))
    = {[2%nat := ((clock (advance 100 world_a) + 300)%Z, "b")]}.
Proof.
  split; [reflexivity|].
  assert (1 ≤ 300 ≤ 2147483647)%Z as Hrange by lia.
  split; [exact Hrange|].
  exact (proj2 (debounce_call_replaces_pending clamping_delay 300
                  (advance 100 world_a) "b" world_a_later_reachable)
           clamping_keeps_delay Hrange).
Defined.

Lemma debounce_quiet_period_witness :
  trace world_done = [Called 0 "a"; Called 100 "b"; Invoked 400 "b"]
  ∧ ∃ l0 t0,
      [Called 0%Z "a"; Called 100%Z "b"] = (l0 ++ [Called t0 "b"])%list
      ∧ (t0 + 300 ≤ 400)%Z.
Proof.
  split; [reflexivity|].
  destruct (debounce_quiet_period clamping_delay 300 world_done
              [Called 0%Z "a"; Called 100%Z "b"] [] 400 "b"
              world_done_reachable eq_refl)
    as (l0 & t0 & Hl & _ & Hold).
  exists l0, t0. split; [exact Hl|].
  apply Hold; [exact clamping_keeps_delay|lia].
Defined.

Lemma debounce_lone_call_delivered_witness :
  (∃ w', fire (next_id (advance 100 world_a))
           (advance 400
              (debounced clamping_delay 300 "b" (advance 100 world_a)))
         = Some w'
         ∧ trace w' = (trace (advance 100 world_a)
                       ++ [Called (clock (advance 100 world_a)) "b";
                           Invoked 400 "b"])%list
         ∧ timers w' = ∅)
  ∧ ∀ id, fire id
            (advance 399
               (debounced clamping_delay 300 "b" (advance 100 world_a)))
          = None.
Proof.
  assert (1 ≤ 300 ≤ 2147483647)%Z as Hrange by lia.
  split.
  - apply (proj1 (debounce_lone_call_delivered clamping_delay 300
                    (advance 100 world_a) "b" 400 world_a_later_reachable)).
    + by vm_compute.
    + by vm_compute.
  - apply (proj2 (proj2 (debounce_lone_call_delivered clamping_delay 300
                           (advance 100 world_a) "b" 399
                           world_a_later_reachable))
             clamping_keeps_delay Hrange).
    by vm_compute.
Defined.
